(** * DrumExtract: the task orchestration core

    A shallow embedding of [src/pipeline.py] (class [DrumPipeline]) and of the
    handlers of [src/main.py] (upload, WebSocket processing, status, download,
    cancellation and the retention sweep), together with the properties of
    the orchestration core stated over it.

    Conventions of the model.
    - The filesystem is a finite map from absolute paths to nodes; a path is
      the list of its components, [p </> n] appends one component (the source
      only ever joins a directory with a single file name).
    - Times ([st_mtime], [datetime.now()]) are integers, in microseconds.
    - Python exceptions are values of [exn]; a function that may raise
      returns a [result].
    - The two ML collaborators (Spleeter and Basic-Pitch) are parameters:
      opaque transformers of the filesystem that may raise. *)

From Stdlib Require Import ZArith Ascii String Strings.Byte Sorted.
From stdpp Require Import gmap strings list fin_maps pretty.

Open Scope Z_scope.

(** ** Paths *)

Abbreviation path := (list string).

Definition path_join (p : path) (n : string) : path := p ++ [n].
Infix "</>" := path_join (at level 40, left associativity).

(** [str(path)] for an absolute path. *)
Fixpoint str (p : path) : string :=
  match p with
  | [] => ""
  | c :: r => "/" +:+ c +:+ str r
  end.

(** [Path.name]: the last component. *)
Definition name (p : path) : string := List.last p "".

(** [str.rpartition('.')] when a dot occurs: the text before the last dot
    and the text after it. *)
Fixpoint rpartition_dot (s : string) : option (string * string) :=
  match s with
  | EmptyString => None
  | String c r =>
      match rpartition_dot r with
      | Some (a, b) => Some (String c a, b)
      | None => if Ascii.eqb c "."%char then Some (EmptyString, r) else None
      end
  end.

Definition nonempty (s : string) : bool :=
  match s with EmptyString => false | _ => true end.

(** pathlib's [PurePath.stem]: [i = name.rfind('.')], and
    [name[:i]] when [0 < i < len(name) - 1], otherwise [name]. *)
Definition stem_of_name (n : string) : string :=
  match rpartition_dot n with
  | Some (a, b) => if nonempty a && nonempty b then a else n
  | None => n
  end.

(** pathlib's [PurePath.suffix]: [name[i:]] under the same condition,
    otherwise the empty string. *)
Definition suffix_of_name (n : string) : string :=
  match rpartition_dot n with
  | Some (a, b) => if nonempty a && nonempty b then "." +:+ b else ""
  | None => ""
  end.

Definition stem (p : path) : string := stem_of_name (name p).

(** [str.lower] on ASCII letters. *)
Definition lower_ascii (c : Ascii.ascii) : Ascii.ascii :=
  let n := Ascii.nat_of_ascii c in
  if (Nat.leb 65 n && Nat.leb n 90)%bool then Ascii.ascii_of_nat (n + 32) else c.

Fixpoint lower (s : string) : string :=
  match s with
  | EmptyString => EmptyString
  | String c r => String (lower_ascii c) (lower r)
  end.

(** ** Exceptions and results *)

Inductive exn :=
  | FileNotFoundError (msg : string)
  | ValueError (msg : string)
  | IsADirectoryError (p : path)
  | NotADirectoryError (p : path)
  | FileExistsError (p : path)
  | HTTPException (status_code : Z) (detail : string)
  | ExternalError (msg : string).
  (* [ExternalError]: an exception raised by library or collaborator code
     (Spleeter, Basic-Pitch, the WebSocket transport, the disk), carrying
     the text [str(e)] gives. *)

(** [str(e)]. For the [OSError]s raised by the filesystem primitives the
    text is the one CPython builds: errno, message, quoted file name; for
    an [HTTPException] it is the status code and the detail, as recent
    Starlette versions print it (no property below depends on it). *)
Definition str_exn (e : exn) : string :=
  match e with
  | FileNotFoundError msg => msg
  | ValueError msg => msg
  | IsADirectoryError p => "[Errno 21] Is a directory: '" +:+ str p +:+ "'"
  | NotADirectoryError p => "[Errno 20] Not a directory: '" +:+ str p +:+ "'"
  | FileExistsError p => "[Errno 17] File exists: '" +:+ str p +:+ "'"
  | HTTPException c d => pretty c +:+ ": " +:+ d
  | ExternalError msg => msg
  end.

Inductive result (A : Type) :=
  | Ok (a : A)
  | Raise (e : exn).
Arguments Ok {A} a.
Arguments Raise {A} e.

(** ** The filesystem *)

#[global] Instance byte_eq_dec : EqDecision byte := Byte.byte_eq_dec.

Inductive node :=
  | File (mtime : Z) (data : list byte)
  | Dir (mtime : Z) (dsize : Z).

Abbreviation FS := (gmap path node).

Definition enoent (p : path) : exn :=
  FileNotFoundError ("[Errno 2] No such file or directory: '" +:+ str p +:+ "'").

Definition exists_ (fs : FS) (p : path) : bool :=
  match fs !! p with Some _ => true | None => false end.

Definition is_file (fs : FS) (p : path) : bool :=
  match fs !! p with Some (File _ _) => true | _ => false end.

Definition is_dir (fs : FS) (p : path) : bool :=
  match fs !! p with Some (Dir _ _) => true | _ => false end.

Definition st_mtime (n : node) : Z :=
  match n with File t _ => t | Dir t _ => t end.

Definition st_size (n : node) : Z :=
  match n with File _ d => Z.of_nat (length d) | Dir _ s => s end.

(** [Path.stat()]. *)
Definition stat (fs : FS) (p : path) : result node :=
  match fs !! p with
  | Some n => Ok n
  | None => Raise (enoent p)
  end.

(** [Path.unlink()], without [missing_ok]. *)
Definition unlink (p : path) (fs : FS) : result unit * FS :=
  match fs !! p with
  | Some (File _ _) => (Ok tt, delete p fs)
  | Some (Dir _ _) => (Raise (IsADirectoryError p), fs)
  | None => (Raise (enoent p), fs)
  end.

(** The entries at or below [p]. *)
Definition under (p : path) (q : path) : Prop := p `prefix_of` q.

(** [shutil.rmtree(p)]: removes the directory and everything below it. *)
Definition rmtree (p : path) (fs : FS) : result unit * FS :=
  match fs !! p with
  | Some (Dir _ _) => (Ok tt, filter (λ kv, ¬ under p kv.1) fs)
  | Some (File _ _) => (Raise (NotADirectoryError p), fs)
  | None => (Raise (enoent p), fs)
  end.

(** [Path.mkdir(exist_ok=True)] at time [now]. *)
Definition mkdir_exist_ok (now : Z) (p : path) (fs : FS) : result unit * FS :=
  match fs !! p with
  | None => (Ok tt, <[p := Dir now 4096]> fs)
  | Some (Dir _ _) => (Ok tt, fs)
  | Some (File _ _) => (Raise (FileExistsError p), fs)
  end.

(** The direct children of directory [d]. *)
Definition child_of (d q : path) : Prop :=
  d `prefix_of` q ∧ length q = S (length d).

Definition is_empty_dir (fs : FS) (d : path) : bool :=
  bool_decide (Forall (λ q, under d q → q = d) (map_to_list fs).*1).

(** Where an entry at or below [src] lands when [src] is renamed to [dst]. *)
Definition rekey (src dst q : path) : path :=
  if decide (under src q) then dst ++ drop (length src) q else q.

Definition move_tree (src dst : path) (fs : FS) : FS :=
  list_to_map (prod_map (rekey src dst) id <$>
                 map_to_list (filter (λ kv, kv.1 ≠ dst) fs)).

(** [Path.rename(target)], as POSIX [rename(2)]: a file replaces a file at
    [dst] and cannot replace a directory; a directory moves with everything
    below it and can only replace an empty directory; renaming a path to
    itself does nothing. *)
Definition rename (src dst : path) (fs : FS) : result unit * FS :=
  match fs !! src, fs !! dst with
  | None, _ => (Raise (enoent src), fs)
  | Some _, _ => if decide (src = dst) then (Ok tt, fs) else
  match fs !! src, fs !! dst with
  | None, _ => (Raise (enoent src), fs)
  | Some (File _ _ as n), Some (Dir _ _) => (Raise (IsADirectoryError dst), fs)
  | Some (File _ _ as n), _ => (Ok tt, <[dst := n]> (delete src fs))
  | Some (Dir _ _), Some (File _ _) => (Raise (NotADirectoryError dst), fs)
  | Some (Dir _ _), Some (Dir _ _) =>
      if is_empty_dir fs dst then (Ok tt, move_tree src dst fs)
      else (Raise (ExternalError ("[Errno 39] Directory not empty: '" +:+ str src
                                    +:+ "' -> '" +:+ str dst +:+ "'")), fs)
  | Some (Dir _ _), None => (Ok tt, move_tree src dst fs)
  end
  end.

(** The entries one component below [d]. *)
Definition children (fs : FS) (d : path) : list path :=
  filter (child_of d) (map_to_list fs).*1.

(** [Path.iterdir()]: the entries of the directory [d], listed when the
    loop over them starts. It raises when [d] is missing or is not a
    directory. *)
Definition iterdir (fs : FS) (d : path) : result (list path) :=
  match fs !! d with
  | Some (Dir _ _) => Ok (children fs d)
  | Some (File _ _) => Raise (NotADirectoryError d)
  | None => Raise (enoent d)
  end.

(** [open(p, "wb")] followed by [f.write(content)] at time [now]. The file
    is created (or truncated) by [open]; [room] is the number of bytes the
    disk still accepts ([None]: enough), and a write that does not fit
    leaves the bytes that did and raises. *)
Definition write_file (now : Z) (room : option nat) (p : path)
    (content : list byte) (fs : FS) : result unit * FS :=
  match fs !! p with
  | Some (Dir _ _) => (Raise (IsADirectoryError p), fs)
  | _ =>
      match room with
      | Some n =>
          if (n <? length content)%nat
          then (Raise (ExternalError "[Errno 28] No space left on device"),
                <[p := File now (take n content)]> fs)
          else (Ok tt, <[p := File now content]> fs)
      | None => (Ok tt, <[p := File now content]> fs)
      end
  end.

(** [open(p, 'rb')] followed by [f.read(4)]. *)
Definition read4 (fs : FS) (p : path) : result (list byte) :=
  match fs !! p with
  | Some (File _ d) => Ok (take 4 d)
  | Some (Dir _ _) => Raise (IsADirectoryError p)
  | None => Raise (enoent p)
  end.

(** ** Code that reads and writes the filesystem and may raise *)

Definition M (A : Type) : Type := FS → result A * FS.

Definition ret {A} (a : A) : M A := λ fs, (Ok a, fs).
Definition raise {A} (e : exn) : M A := λ fs, (Raise e, fs).
Definition bind {A B} (m : M A) (k : A → M B) : M B :=
  λ fs, match m fs with
        | (Ok a, fs') => k a fs'
        | (Raise e, fs') => (Raise e, fs')
        end.
Definition ask {A} (f : FS → A) : M A := λ fs, (Ok (f fs), fs).
Definition try_ {A} (f : FS → result A) : M A := λ fs, (f fs, fs).

(** [if cond: raise e] *)
Definition raise_if (cond : bool) (e : exn) : M unit :=
  if cond then raise e else ret tt.

Declare Scope py_scope.
Delimit Scope py_scope with py.
Notation "x <- m ;; k" := (bind m (λ x, k))
  (at level 100, m at next level, right associativity) : py_scope.
Notation "m ;; k" := (bind m (λ _, k))
  (at level 100, right associativity) : py_scope.

(** ** pipeline.py *)

Inductive ProcessingStage := SEPARATION | MIDI_CONVERSION | VALIDATION | COMPLETE.

(** The position of a stage in the pipeline. *)
Definition stage_rank (s : ProcessingStage) : nat :=
  match s with
  | SEPARATION => 0
  | MIDI_CONVERSION => 1
  | VALIDATION => 2
  | COMPLETE => 3
  end.

(** The progress dictionaries [process] yields. *)
Record event := Event {
  stage : ProcessingStage;
  percent : Z;
  message : string
}.

(** An asynchronous generator: it yields an event and waits to be resumed,
    or awaits a computation and goes on with its value, or returns. An
    exception raised by an awaited computation ends the generator. *)
Inductive gen :=
  | Yield (ev : event) (k : gen)
  | Await {A : Type} (m : M A) (k : A → gen)
  | Return.

(** [_validate_outputs] *)
Definition _validate_outputs (drum_path midi_path : path) : M unit :=
  (drum_exists <- ask (λ fs, exists_ fs drum_path) ;;
   raise_if (negb drum_exists)
     (FileNotFoundError ("Drum audio not found: " +:+ str drum_path)) ;;
   drum_stat <- try_ (λ fs, stat fs drum_path) ;;
   raise_if (st_size drum_stat <? 1000)
     (ValueError ("Drum audio file too small: " +:+ str drum_path)) ;;
   midi_exists <- ask (λ fs, exists_ fs midi_path) ;;
   raise_if (negb midi_exists)
     (FileNotFoundError ("MIDI file not found: " +:+ str midi_path)) ;;
   midi_stat <- try_ (λ fs, stat fs midi_path) ;;
   raise_if (st_size midi_stat <? 100)
     (ValueError ("MIDI file too small: " +:+ str midi_path)) ;;
   header <- try_ (λ fs, read4 fs midi_path) ;;
   raise_if (bool_decide (header ≠ ["M"; "T"; "h"; "d"]%byte))
     (ValueError ("Invalid MIDI file format: " +:+ str midi_path)))%py.

Section DrumPipeline.

(** [self.output_dir] *)
Variable output_dir : path.

(** [Separator('spleeter:4stems').separate_to_file(audio, destination)]
    and [basic_pitch.inference.predict_and_save([audio], output_directory,
    ...)]: external code, run to completion in a worker thread. *)
Variable separate_to_file : path → path → M unit.
Variable predict_and_save : path → path → M unit.

(** The time of the run, which stamps what the pipeline creates. *)
Variable now : Z.

(** [_separate_drums] *)
Definition _separate_drums (task_id : string) (audio_path : path) : M path :=
  (let temp_output := output_dir </> (task_id +:+ "_stems") in
   mkdir_exist_ok now temp_output ;;
   separate_to_file audio_path temp_output ;;
   let stem_folder := temp_output </> stem audio_path in
   let drum_source := stem_folder </> "drums.wav" in
   found <- ask (λ fs, exists_ fs drum_source) ;;
   raise_if (negb found)
     (FileNotFoundError
        ("Spleeter did not generate drums.wav at " +:+ str drum_source)) ;;
   let drum_final := output_dir </> (task_id +:+ "_drums.wav") in
   rename drum_source drum_final ;;
   rmtree temp_output ;;
   ret drum_final)%py.

(** [_run_basic_pitch] *)
Definition _run_basic_pitch (audio_path out_dir : path) (task_id : string)
    : M unit :=
  predict_and_save audio_path out_dir.

(** [_convert_to_midi] *)
Definition _convert_to_midi (task_id : string) (drum_path : path) : M path :=
  (let midi_output := output_dir </> (task_id +:+ "_drums.mid") in
   _run_basic_pitch drum_path output_dir task_id ;;
   let generated_midi := output_dir </> (stem drum_path +:+ "_basic_pitch.mid") in
   found <- ask (λ fs, exists_ fs generated_midi) ;;
   raise_if (negb found)
     (FileNotFoundError
        ("Basic-Pitch did not generate MIDI at " +:+ str generated_midi)) ;;
   rename generated_midi midi_output ;;
   ret midi_output)%py.

(** [process] *)
Definition process (task_id : string) (audio_path : path) : gen :=
  Yield (Event SEPARATION 0 "Initializing Spleeter engine...")
  (Await (_separate_drums task_id audio_path) (λ drum_path,
  Yield (Event SEPARATION 100 "Drum stem isolated successfully")
  (Yield (Event MIDI_CONVERSION 0 "Analyzing drum transients...")
  (Await (_convert_to_midi task_id drum_path) (λ midi_path,
  Yield (Event MIDI_CONVERSION 100 "MIDI extraction complete")
  (Yield (Event VALIDATION 0 "Validating output files...")
  (Await (_validate_outputs drum_path midi_path) (λ _,
  Yield (Event VALIDATION 100 "All outputs validated")
  (Yield (Event COMPLETE 100 "Processing complete - ready for download")
  Return))))))))).

End DrumPipeline.

(** What a consumer that resumes the generator until it ends sees: the
    events yielded, how the generator ended and the filesystem it leaves. *)
Fixpoint run_gen (g : gen) (fs : FS) : list event * option exn * FS :=
  match g with
  | Yield ev k =>
      let '(evs, r, fs') := run_gen k fs in (ev :: evs, r, fs')
  | Await m k =>
      match m fs with
      | (Ok a, fs') => run_gen (k a) fs'
      | (Raise e, fs') => ([], Some e, fs')
      end
  | Return => ([], None, fs)
  end.

(** ** main.py: models and configuration *)

Inductive Status := pending | processing | complete | failed.

#[global] Instance Status_eq_dec : EqDecision Status.
Proof. solve_decision. Defined.

Record ProgressUpdate := {
  pu_task_id : string;
  pu_stage : ProcessingStage;
  pu_percent : Z;
  pu_message : string;
  pu_timestamp : Z
}.

(** The dictionaries stored in [task_registry]; a key that may be absent is
    an option. Paths are kept as paths rather than as their [str]. *)
Record task := Task {
  status : Status;
  upload_path : path;
  filename : string;
  created_at : Z;
  progress : option ProgressUpdate;
  midi_path : option path;
  drum_path : option path;
  error : option string
}.

Definition set_status (s : Status) (t : task) : task :=
  Task s (upload_path t) (filename t) (created_at t) (progress t)
       (midi_path t) (drum_path t) (error t).
Definition set_progress (u : ProgressUpdate) (t : task) : task :=
  Task (status t) (upload_path t) (filename t) (created_at t) (Some u)
       (midi_path t) (drum_path t) (error t).
Definition set_outputs (m d : path) (t : task) : task :=
  Task (status t) (upload_path t) (filename t) (created_at t) (progress t)
       (Some m) (Some d) (error t).
Definition set_error (e : string) (t : task) : task :=
  Task (status t) (upload_path t) (filename t) (created_at t) (progress t)
       (midi_path t) (drum_path t) (Some e).

Record UploadResponse := {
  ur_task_id : string;
  ur_status : string;
  ur_message : string
}.

Record TaskStatus := {
  ts_task_id : string;
  ts_status : Status;
  ts_progress : option ProgressUpdate;
  ts_midi_url : option string;
  ts_drum_url : option string;
  ts_error : option string
}.

Record FileResponse := {
  fr_path : path;
  fr_media_type : string;
  fr_filename : string
}.

Definition UPLOAD_DIR : path := ["tmp"; "drumextract"; "uploads"].
Definition OUTPUT_DIR : path := ["tmp"; "drumextract"; "outputs"].
Definition ALLOWED_EXTENSIONS : list string := [".wav"; ".mp3"; ".m4a"; ".flac"].
Definition MAX_FILE_SIZE : Z := 100 * 1024 * 1024.

(** The process-wide state: the disk, [task_registry] and the clock
    [datetime.now()] reads. *)
Record World := {
  fs : FS;
  task_registry : gmap string task;
  clock : Z
}.

Definition with_fs (f : FS) (w : World) : World :=
  {| fs := f; task_registry := task_registry w; clock := clock w |}.
Definition with_registry (r : gmap string task) (w : World) : World :=
  {| fs := fs w; task_registry := r; clock := clock w |}.

(** A mutation of the dictionary [task] a handler holds: it shows in the
    registry as long as the record is registered under [task_id]. *)
Definition update_task (task_id : string) (f : task → task) (w : World) : World :=
  with_registry (alter f task_id (task_registry w)) w.

(** ** The WebSocket connection *)

Inductive frame :=
  | ErrorFrame (err : string) (details : option string) (task_id : string)
      (timestamp : option Z)
  | ProgressFrame (u : ProgressUpdate)
  | CompleteFrame (task_id midi_url drum_url : string) (timestamp : Z).

(** A connection: the frames delivered so far, how many more the client
    will take before it goes away ([None]: it stays), the text of the
    exception a send raises once it has gone, and whether [close] was
    called. *)
Record WebSocket := {
  sent : list frame;
  budget : option nat;
  fault : string;
  closed : bool
}.

(** [await websocket.send_json(f)] *)
Definition send_json (ws : WebSocket) (f : frame) : result WebSocket :=
  match budget ws with
  | Some O => Raise (ExternalError (fault ws))
  | Some (S n) =>
      Ok {| sent := sent ws ++ [f]; budget := Some n;
            fault := fault ws; closed := closed ws |}
  | None =>
      Ok {| sent := sent ws ++ [f]; budget := None;
            fault := fault ws; closed := closed ws |}
  end.

(** [await websocket.close()]. Only the call is recorded: whether closing
    a connection the client has left raises is not modelled, and in
    [process_audio] it could only add an escaping exception after the
    registry has been written. *)
Definition close (ws : WebSocket) : WebSocket :=
  {| sent := sent ws; budget := budget ws; fault := fault ws; closed := true |}.

(** ** The retention sweep *)

Definition HOUR : Z := 3600 * 1000000.

(** [datetime.fromtimestamp]. Times are counted in microseconds since the
    epoch. A [datetime] holds the years 1 to 9999 only: outside them the
    conversion raises (the bounds are those of UTC; the exception and its
    text depend on the platform). *)
Definition DATETIME_MIN : Z := -62135596800 * 1000000.
Definition DATETIME_MAX : Z := 253402300800 * 1000000.

Definition datetime_ok (t : Z) : bool :=
  (DATETIME_MIN <=? t) && (t <? DATETIME_MAX).

Definition fromtimestamp (t : Z) : result Z :=
  if datetime_ok t then Ok t else Raise (ValueError "year is out of range").

(** One entry of one pass of [cleanup_old_files]. Other processes and
    threads share the disk: [race] is what they do to it between the moment
    the sweep has looked at the entry and the moment it removes it. *)
Definition sweep_item (race : FS → FS) (cutoff : Z) (item : path) : M unit :=
  (file <- ask (λ fs, is_file fs item) ;;
   if file : bool then
     st <- try_ (λ fs, stat fs item) ;;
     mtime <- try_ (λ _, fromtimestamp (st_mtime st)) ;;
     if mtime <? cutoff
     then (λ fs, unlink item (race fs))
     else ret tt
   else
     dir <- ask (λ fs, is_dir fs item) ;;
     if dir : bool then
       (λ fs, match rmtree item (race fs) with
              | (Ok _, fs') => (Ok tt, fs')
              | (Raise _, fs') => (Ok tt, fs')
              end)
     else ret tt)%py.

Fixpoint sweep_items (race : path → FS → FS) (cutoff : Z) (items : list path)
    : M unit :=
  match items with
  | [] => ret tt
  | item :: rest =>
      (sweep_item (race item) cutoff item ;; sweep_items race cutoff rest)%py
  end.

Definition sweep_directory (race : path → FS → FS) (cutoff : Z)
    (directory : path) : M unit :=
  (items <- try_ (λ fs, iterdir fs directory) ;;
   sweep_items race cutoff items)%py.

(** The body of the [while True] loop after the sleep, at time [now]. *)
Definition cleanup_pass (race : path → FS → FS) (now : Z) : M unit :=
  (let cutoff := now - HOUR in
   sweep_directory race cutoff UPLOAD_DIR ;;
   sweep_directory race cutoff OUTPUT_DIR)%py.

Definition no_race : path → FS → FS := λ _ fs, fs.

(** [cleanup_old_files]: the loop over its wake-ups, each with the time it
    happens at and what the rest of the system does meanwhile. The result
    is the number of passes completed and, when a pass raised, the exception
    that ended the task. *)
Fixpoint cleanup_old_files (wakeups : list (Z * (path → FS → FS))) (fs : FS)
    : nat * option exn * FS :=
  match wakeups with
  | [] => (O, None, fs)
  | (now, race) :: later =>
      match cleanup_pass race now fs with
      | (Ok _, fs') =>
          let '(n, r, fs'') := cleanup_old_files later fs' in (S n, r, fs'')
      | (Raise e, fs') => (O, Some e, fs')
      end
  end.

(** ** main.py: the endpoints *)

(** The components of a file name given with directories, as pathlib
    splits it. *)
Fixpoint parts (s : string) : list string :=
  match s with
  | EmptyString => [EmptyString]
  | String c r =>
      if Ascii.eqb c "/"%char then EmptyString :: parts r
      else match parts r with
           | x :: xs => String c x :: xs
           | [] => [String c EmptyString]
           end
  end.

(** [Path(filename).suffix]: the suffix of the last component, empty and
    ["."] components dropped. *)
Definition filename_suffix (filename : string) : string :=
  suffix_of_name
    (List.last (filter (λ x, x ≠ "" ∧ x ≠ ".") (parts filename)) "").

(** What the handler receives: [file.filename] and what
    [await file.read()] gives. *)
Record UploadFile := {
  uf_filename : string;
  uf_read : result (list byte)
}.

(** [upload_audio]. [uuid4] is the identifier [uuid.uuid4()] draws and
    [room] the space left on the disk. The extensions in the first error
    message are joined in the order of the source text (Python iterates the
    set in an order of its own). *)
Definition upload_audio (file : UploadFile) (uuid4 : string) (room : option nat)
    (w : World) : result UploadResponse * World :=
  let file_ext := lower (filename_suffix (uf_filename file)) in
  if negb (bool_decide (file_ext ∈ ALLOWED_EXTENSIONS)) then
    (Raise (HTTPException 400
              "Unsupported file type. Allowed: .wav, .mp3, .m4a, .flac"), w)
  else
    let task_id := uuid4 in
    let upload_path := UPLOAD_DIR </> (task_id +:+ file_ext) in
    let attempt : result UploadResponse * World :=
      match uf_read file with
      | Raise e => (Raise e, w)
      | Ok content =>
          if MAX_FILE_SIZE <? Z.of_nat (length content) then
            (Raise (HTTPException 400 "File too large. Max size: 100.0MB"), w)
          else
            match write_file (clock w) room upload_path content (fs w) with
            | (Raise e, fs') => (Raise e, with_fs fs' w)
            | (Ok _, fs') =>
                let record :=
                  Task pending upload_path (uf_filename file) (clock w)
                       None None None None in
                (Ok {| ur_task_id := task_id;
                       ur_status := "success";
                       ur_message := "File uploaded successfully. Connect to /ws/process/"
                                       +:+ task_id |},
                 with_registry (<[task_id := record]> (task_registry w))
                               (with_fs fs' w))
            end
      end in
    match attempt with
    | (Ok r, w') => (Ok r, w')
    | (Raise e, w') =>
        let failure := HTTPException 500 ("Upload failed: " +:+ str_exn e) in
        if exists_ (fs w') upload_path then
          match unlink upload_path (fs w') with
          | (Ok _, fs') => (Raise failure, with_fs fs' w')
          | (Raise e', fs') => (Raise e', with_fs fs' w')
          end
        else (Raise failure, w')
    end.

(** [get_status] *)
Definition get_status (task_id : string) (w : World) : result TaskStatus :=
  match task_registry w !! task_id with
  | None => Raise (HTTPException 404 "Task not found")
  | Some task =>
      Ok {| ts_task_id := task_id;
            ts_status := status task;
            ts_progress := progress task;
            ts_midi_url := if decide (status task = complete)
                           then Some ("/download/midi/" +:+ task_id) else None;
            ts_drum_url := if decide (status task = complete)
                           then Some ("/download/drum/" +:+ task_id) else None;
            ts_error := error task |}
  end.

(** The common shape of [download_midi] and [download_drum_audio]. *)
Definition download (key : task → option path) (key_name missing media suffix : string)
    (task_id : string) (w : World) : result FileResponse :=
  match task_registry w !! task_id with
  | None => Raise (HTTPException 404 "Task not found")
  | Some task =>
      if decide (status task ≠ complete) then
        Raise (HTTPException 400 "Processing not complete")
      else
        match key task with
        | None => Raise (ExternalError ("'" +:+ key_name +:+ "'"))
        | Some p =>
            if negb (exists_ (fs w) p) then Raise (HTTPException 404 missing)
            else Ok {| fr_path := p; fr_media_type := media;
                       fr_filename := filename task +:+ suffix |}
        end
  end.

Definition download_midi : string → World → result FileResponse :=
  download midi_path "midi_path" "MIDI file not found" "audio/midi" "_drums.mid".

Definition download_drum_audio : string → World → result FileResponse :=
  download drum_path "drum_path" "Drum audio not found" "audio/wav" "_drums.wav".

(** [health_check]: the number of tasks in [processing]. *)
Definition health_check (w : World) : nat :=
  length (filter (λ kv, status kv.2 = processing) (map_to_list (task_registry w))).

(** [cancel_task] *)
Definition remove_if_present (p : option path) : M unit :=
  match p with
  | None => ret tt
  | Some p =>
      (present <- ask (λ fs, exists_ fs p) ;;
       if present : bool then unlink p else ret tt)%py
  end.

Definition cancel_task (task_id : string) (w : World) : result unit * World :=
  match task_registry w !! task_id with
  | Some task =>
      match (remove_if_present (Some (upload_path task)) ;;
             remove_if_present (midi_path task) ;;
             remove_if_present (drum_path task))%py (fs w) with
      | (Ok _, fs') =>
          (Ok tt, with_registry (delete task_id (task_registry w)) (with_fs fs' w))
      | (Raise e, fs') => (Raise e, with_fs fs' w)
      end
  | None => (Raise (HTTPException 404 "Task not found"), w)
  end.

Section ProcessAudio.

Variable separate_to_file : path → path → M unit.
Variable predict_and_save : path → path → M unit.

(** [pipeline = DrumPipeline(output_dir=OUTPUT_DIR)] *)
Definition pipeline_process (now : Z) : string → path → gen :=
  process OUTPUT_DIR separate_to_file predict_and_save now.

(** Lines 164-184 of [process_audio]: the task is looked up, a task that
    is unknown or already processing is refused, any other is set to
    [processing]. *)
Inductive admission :=
  | Accepted (upload_path : path) (w : World)
  | Refused (f : frame).

Definition begin_subscription (task_id : string) (w : World) : admission :=
  match task_registry w !! task_id with
  | None => Refused (ErrorFrame "Invalid task ID" None task_id None)
  | Some task =>
      if decide (status task = processing) then
        Refused (ErrorFrame "Task already processing" None task_id None)
      else
        Accepted (upload_path task) (update_task task_id (set_status processing) w)
  end.

(** What a handler leaves: the world, its connection and the exception
    that escaped it, if any. *)
Definition outcome : Type := World * WebSocket * option exn.

(** The [except Exception] block followed by [finally]. *)
Definition on_exception (task_id : string) (e : exn) (w : World)
    (ws : WebSocket) : outcome :=
  let w' := update_task task_id
              (λ t, set_error (str_exn e) (set_status failed t)) w in
  match send_json ws (ErrorFrame "Processing failed" (Some (str_exn e))
                        task_id (Some (clock w))) with
  | Ok ws' => (w', close ws', None)
  | Raise e' => (w', close ws, Some e')
  end.

(** [ProgressUpdate(task_id=..., stage=progress["stage"], ...,
    timestamp=datetime.now().isoformat())] *)
Definition progress_update (task_id : string) (progress : event) (now : Z)
    : ProgressUpdate :=
  {| pu_task_id := task_id;
     pu_stage := stage progress;
     pu_percent := percent progress;
     pu_message := message progress;
     pu_timestamp := now |}.

(** The [try] block from the point where the generator stands at [g]: the
    [async for] loop, then the completion. *)
Fixpoint stream (g : gen) (task_id : string) (w : World) (ws : WebSocket)
    : outcome :=
  match g with
  | Yield progress k =>
      let update := progress_update task_id progress (clock w) in
      match send_json ws (ProgressFrame update) with
      | Raise e => on_exception task_id e w ws
      | Ok ws' => stream k task_id (update_task task_id (set_progress update) w) ws'
      end
  | Await m k =>
      match m (fs w) with
      | (Ok a, fs') => stream (k a) task_id (with_fs fs' w) ws
      | (Raise e, fs') => on_exception task_id e (with_fs fs' w) ws
      end
  | Return =>
      let w' :=
        update_task task_id
          (λ t, set_outputs (OUTPUT_DIR </> (task_id +:+ "_drums.mid"))
                            (OUTPUT_DIR </> (task_id +:+ "_drums.wav"))
                            (set_status complete t)) w in
      match send_json ws (CompleteFrame task_id
                            ("/download/midi/" +:+ task_id)
                            ("/download/drum/" +:+ task_id) (clock w)) with
      | Ok ws' => (w', close ws', None)
      | Raise e => on_exception task_id e w' ws
      end
  end.

(** [process_audio] *)
Definition process_audio (ws : WebSocket) (task_id : string) (w : World)
    : outcome :=
  match begin_subscription task_id w with
  | Refused f =>
      match send_json ws f with
      | Ok ws' => (w, close ws', None)
      | Raise e => (w, ws, Some e)
      end
  | Accepted upload_path w' =>
      stream (pipeline_process (clock w) task_id upload_path) task_id w' ws
  end.

End ProcessAudio.

(** * Notions the properties are stated with *)

(** The order the channel relies on: the stage never goes back, and within
    a stage the percentage never goes down. *)
Definition progress_le (e1 e2 : event) : Prop :=
  (stage_rank (stage e1) ≤ stage_rank (stage e2))%nat ∧
  (stage e1 = stage e2 → percent e1 ≤ percent e2).

(** The magic number of a standard MIDI file. *)
Definition MThd : list byte := ["M"; "T"; "h"; "d"]%byte.

(** The status of a task in a world, and its recorded error. *)
Definition status_of (task_id : string) (w : World) : option Status :=
  status <$> task_registry w !! task_id.

Definition error_of (task_id : string) (w : World) : option string :=
  task_registry w !! task_id ≫= error.

(** [needle] occurs in [text]. *)
Definition mentions (text needle : string) : Prop :=
  ∃ before after, text = before +:+ needle +:+ after.

(** ** A concrete deployment

    One uploaded file, one pending task, and collaborators that behave as
    Spleeter and Basic-Pitch do (or that return without writing anything).
    The properties below are instantiated and the failures exhibited on
    it. *)

Definition demo_wav : list byte := repeat x00 1000.
Definition demo_midi : list byte := MThd ++ repeat x00 100.

(** Spleeter: writes [<destination>/<stem of the audio>/drums.wav]. *)
Definition spleeter_ok (audio destination : path) : M unit :=
  λ fs, (Ok tt, <[destination </> stem audio </> "drums.wav" := File 0 demo_wav]>
                  (<[destination </> stem audio := Dir 0 4096]> fs)).

(** Basic-Pitch: writes [<output_directory>/<stem of the audio>_basic_pitch.mid]. *)
Definition basic_pitch_ok (audio output_directory : path) : M unit :=
  λ fs, (Ok tt, <[output_directory </> (stem audio +:+ "_basic_pitch.mid")
                    := File 0 demo_midi]> fs).

(** A collaborator that returns normally and has written nothing. *)
Definition silent (audio destination : path) : M unit := ret tt.

(** A collaborator that raises. *)
Definition crashing (audio destination : path) : M unit :=
  raise (ExternalError "out of memory").

Definition demo_upload : path := UPLOAD_DIR </> "t1.wav".

Definition demo_fs : FS :=
  <[demo_upload := File 0 [x00; x01]]>
    (<[OUTPUT_DIR := Dir 0 4096]> (<[UPLOAD_DIR := Dir 0 4096]> ∅)).

Definition demo_task (s : Status) : task :=
  Task s demo_upload "song.wav" 0 None None None None.

Definition demo_world (s : Status) : World :=
  {| fs := demo_fs; task_registry := {[ "t1" := demo_task s ]}; clock := 10 |}.

(** A client that stays connected, and one that goes away after [n]
    frames. *)
Definition client_stays : WebSocket :=
  {| sent := []; budget := None; fault := "connection closed"; closed := false |}.
Definition client_leaves_after (n : nat) : WebSocket :=
  {| sent := []; budget := Some n; fault := "connection closed"; closed := false |}.

Definition validated_fs : FS :=
  <[OUTPUT_DIR </> "t1_drums.mid" := File 0 demo_midi]>
    (<[OUTPUT_DIR </> "t1_drums.wav" := File 0 demo_wav]> demo_fs).

(** Another process removes [victim] just as the sweep is about to. *)
Definition racing_removal (victim : path) : path → FS → FS :=
  λ item fs, if decide (item = victim)
             then filter (λ kv, ¬ under victim kv.1) fs
             else fs.

Definition stale_fs : FS :=
  <[OUTPUT_DIR </> "old_drums.mid" := File 0 demo_midi]>
    (<[UPLOAD_DIR </> "old.wav" := File 0 [x00]]>
       (<[OUTPUT_DIR := Dir 0 4096]> (<[UPLOAD_DIR := Dir 0 4096]> ∅))).

Definition stale_dir_fs : FS :=
  <[OUTPUT_DIR </> "old_drums.mid" := File 0 demo_midi]>
    (<[UPLOAD_DIR </> "old_stems" := Dir 0 4096]>
       (<[OUTPUT_DIR := Dir 0 4096]> (<[UPLOAD_DIR := Dir 0 4096]> ∅))).

(** ** Status transitions *)

Definition status_rank (s : Status) : nat :=
  match s with
  | pending => 0
  | processing => 1
  | complete | failed => 2
  end.

(** [s'] is [s] or lies further along pending, processing,
    complete-or-failed. *)
Definition forward (s s' : Status) : Prop :=
  s' = s ∨ (status_rank s < status_rank s')%nat.

(** The statement that the first part of a subscription (the lookup, the
    guard and the assignment of [processing]) never moves a status
    backwards. *)
Definition subscription_never_reverses : Prop :=
  ∀ task_id w upload_path w' s s',
    begin_subscription task_id w = Accepted upload_path w' →
    status_of task_id w = Some s →
    status_of task_id w' = Some s' →
    forward s s'.

(** The moves the handlers make: forward along the chain, or from a
    terminal status back to [processing]. *)
Definition status_step (s s' : Status) : Prop :=
  s' = s ∨
  (s = pending ∧ s' = processing) ∨
  (s = processing ∧ (s' = complete ∨ s' = failed)) ∨
  ((s = complete ∨ s = failed) ∧ s' = processing).

(** The writers of the registry. [get_status], [download_midi],
    [download_drum_audio] and [health_check] return no world: they only
    read. A rejected subscription leaves the world as it is. *)
Inductive step : World → World → Prop :=
  | step_upload file uuid4 room w :
      task_registry w !! uuid4 = None →
      step w (upload_audio file uuid4 room w).2
  | step_subscribe task_id w upload_path w' :
      begin_subscription task_id w = Accepted upload_path w' →
      step w w'
  | step_stream g task_id ws w :
      status_of task_id w = Some processing →
      step w (stream g task_id w ws).1.1
  | step_cancel task_id w :
      step w (cancel_task task_id w).2.

(** ** Disconnection *)

(** The statement that a client going away does not change where the task
    ends. *)
Definition disconnect_is_harmless : Prop :=
  ∀ separate_to_file predict_and_save task_id w gone stays,
    budget stays = None →
    status_of task_id
      (process_audio separate_to_file predict_and_save gone task_id w).1.1 =
    status_of task_id
      (process_audio separate_to_file predict_and_save stays task_id w).1.1.

(** The disk once a consumer has taken [n] events from the generator,
    resumed it after each, and the generator stands at its next [yield] (or
    has ended). *)
Fixpoint fs_after (n : nat) (g : gen) (fs : FS) : FS :=
  match g with
  | Yield _ k =>
      match n with
      | O => fs
      | S n' => fs_after n' k fs
      end
  | Await m k =>
      match m fs with
      | (Ok a, fs') => fs_after n (k a) fs'
      | (Raise _, fs') => fs'
      end
  | Return => fs
  end.

(** ** The retention sweep *)

(** The statement that a pass removes exactly the entries older than one
    hour. *)
Definition sweep_removes_exactly_the_old : Prop :=
  ∀ now fs directory items item n,
    directory ∈ [UPLOAD_DIR; OUTPUT_DIR] →
    iterdir fs directory = Ok items →
    item ∈ items →
    fs !! item = Some n →
    (exists_ (cleanup_pass no_race now fs).2 item = false ↔ st_mtime n < now - HOUR).

(** A scratch directory made a moment ago, with a stem in it, beside a
    regular file of the same age. *)
Definition fresh_dir_fs : FS :=
  <[OUTPUT_DIR </> "t1_stems" </> "t1" := Dir (2 * HOUR) 4096]>
    (<[OUTPUT_DIR </> "t1_stems" := Dir (2 * HOUR) 4096]>
       (<[OUTPUT_DIR </> "t0_drums.wav" := File (2 * HOUR) demo_wav]>
          (<[OUTPUT_DIR := Dir 0 4096]> (<[UPLOAD_DIR := Dir 0 4096]> ∅)))).

(** An upload. *)
Definition demo_file : UploadFile :=
  {| uf_filename := "Song.WAV"; uf_read := Ok [x00; x01] |}.

(** The connection once [f] has been delivered on it. *)
Definition delivered (ws : WebSocket) (f : frame) : WebSocket :=
  {| sent := sent ws ++ [f]; budget := Nat.pred <$> budget ws;
     fault := fault ws; closed := closed ws |}.

(** What a pass of the sweep leaves of an entry of a swept directory: a
    regular file stays when it is not older than the cutoff, a directory
    goes. *)
Definition swept (cutoff : Z) (n : option node) : option node :=
  match n with
  | Some (File t d) => if t <? cutoff then None else Some (File t d)
  | _ => None
  end.

(** An entry the sweep can look at without raising: not a regular file
    whose modification time no [datetime] holds. *)
Definition item_ok (fs : FS) (p : path) : bool :=
  match fs !! p with
  | Some (File t _) => datetime_ok t
  | _ => true
  end.

(** A directory a pass can go through: it is there, it is a directory, and
    every entry of it can be looked at. *)
Definition sweepable_dir (fs : FS) (d : path) : bool :=
  is_dir fs d && forallb (item_ok fs) (children fs d).

Definition sweepable (fs : FS) : bool :=
  sweepable_dir fs UPLOAD_DIR && sweepable_dir fs OUTPUT_DIR.

(** ** Runs in closed form *)

(** The events of a run that goes through. *)
Definition all_progress_events : list event :=
  [Event SEPARATION 0 "Initializing Spleeter engine...";
   Event SEPARATION 100 "Drum stem isolated successfully";
   Event MIDI_CONVERSION 0 "Analyzing drum transients...";
   Event MIDI_CONVERSION 100 "MIDI extraction complete";
   Event VALIDATION 0 "Validating output files...";
   Event VALIDATION 100 "All outputs validated";
   Event COMPLETE 100 "Processing complete - ready for download"].

(** The frames that carry the events [evs] of the run of [task_id]. *)
Definition progress_frames (task_id : string) (now : Z) (evs : list event)
    : list frame :=
  (λ ev, ProgressFrame (progress_update task_id ev now)) <$> evs.

(** The frame that ends a subscription: completion when the generator
    returned, the error when it raised [e]. *)
Definition terminal_frame (task_id : string) (now : Z) (r : option exn) : frame :=
  match r with
  | None => CompleteFrame task_id ("/download/midi/" +:+ task_id)
              ("/download/drum/" +:+ task_id) now
  | Some e => ErrorFrame "Processing failed" (Some (str_exn e)) task_id (Some now)
  end.

(** The record of a task after a run that yielded [evs] and ended as [r],
    all frames having been delivered. *)
Definition final_record (task_id : string) (now : Z) (evs : list event)
    (r : option exn) (t : task) : task :=
  let t1 := match last evs with
            | Some ev => set_progress (progress_update task_id ev now) t
            | None => t
            end in
  match r with
  | None => set_outputs (OUTPUT_DIR </> (task_id +:+ "_drums.mid"))
                        (OUTPUT_DIR </> (task_id +:+ "_drums.wav"))
                        (set_status complete t1)
  | Some e => set_error (str_exn e) (set_status failed t1)
  end.

(** * Properties *)

Ltac progress_sorted :=
  repeat match goal with
         | |- StronglySorted _ _ => constructor
         | |- Forall _ _ => constructor
         end;
  split; simpl; intros; (lia || discriminate).

(** ** The progress sequence of a pipeline run *)

(** C6. Whatever the disk and the collaborators do, the events a run
    yields are ordered by stage and, within a stage, by percentage. Each
    stage is entered with its event at 0, yielded before the stage has run
    (the disk is still the one the stage before left), and is left, when it
    succeeds and only then, with its own event at 100, yielded once the
    stage has run and before the next one has. A stage that raises ends the
    run with its exception, right after its event at 0; a run whose three
    stages succeed ends with the final event. *)
Theorem process_progress_sequence
    (output_dir : path) (separate_to_file predict_and_save : path → path → M unit)
    (now : Z) (task_id : string) (audio_path : path) (fs : FS) :
  let separation :=
    _separate_drums output_dir separate_to_file now task_id audio_path in
  let conversion := _convert_to_midi output_dir predict_and_save task_id in
  let g := process output_dir separate_to_file predict_and_save now task_id
             audio_path in
  let evs := (run_gen g fs).1.1 in
  let ended := (run_gen g fs).1.2 in
  let sep_0 := Event SEPARATION 0 "Initializing Spleeter engine..." in
  let sep_100 := Event SEPARATION 100 "Drum stem isolated successfully" in
  let midi_0 := Event MIDI_CONVERSION 0 "Analyzing drum transients..." in
  let midi_100 := Event MIDI_CONVERSION 100 "MIDI extraction complete" in
  let val_0 := Event VALIDATION 0 "Validating output files..." in
  let val_100 := Event VALIDATION 100 "All outputs validated" in
  let done_100 := Event COMPLETE 100 "Processing complete - ready for download" in
  StronglySorted progress_le evs ∧
  fs_after 0 g fs = fs ∧
  match (separation fs).1 with
  | Raise e => evs = [sep_0] ∧ ended = Some e
  | Ok drum_path =>
      let fs1 := (separation fs).2 in
      fs_after 1 g fs = fs1 ∧ fs_after 2 g fs = fs1 ∧
      match (conversion drum_path fs1).1 with
      | Raise e => evs = [sep_0; sep_100; midi_0] ∧ ended = Some e
      | Ok midi_path =>
          let fs2 := (conversion drum_path fs1).2 in
          fs_after 3 g fs = fs2 ∧ fs_after 4 g fs = fs2 ∧
          match (_validate_outputs drum_path midi_path fs2).1 with
          | Raise e =>
              evs = [sep_0; sep_100; midi_0; midi_100; val_0] ∧ ended = Some e
          | Ok _ =>
              evs = [sep_0; sep_100; midi_0; midi_100; val_0; val_100; done_100] ∧
              ended = None
          end
      end
  end.
Proof.
  cbv zeta. unfold process. cbn [run_gen fs_after].
  destruct (_separate_drums _ _ _ _ _ fs) as [[d|e1] fs1] eqn:E1; cbn [run_gen fst snd].
  2:{ split; [progress_sorted|]. done. }
  destruct (_convert_to_midi _ _ _ d fs1) as [[m|e2] fs2] eqn:E2; cbn [run_gen fst snd].
  2:{ split; [progress_sorted|]. done. }
  destruct (_validate_outputs d m fs2) as [[u|e3] fs3] eqn:E3; cbn [run_gen fst snd].
  2:{ split; [progress_sorted|]. done. }
  split; [progress_sorted|]. done.
Qed.

Lemma process_progress_sequence_witness :
  let run := run_gen (process OUTPUT_DIR spleeter_ok basic_pitch_ok 10 "t1"
                        demo_upload) demo_fs in
  run.1.1 !! 5%nat = Some (Event VALIDATION 100 "All outputs validated") ∧
  run.1.1 !! 6%nat = Some (Event COMPLETE 100
                             "Processing complete - ready for download") ∧
  run.1.2 = None.
Proof.
  pose proof (process_progress_sequence OUTPUT_DIR spleeter_ok basic_pitch_ok 10
                "t1" demo_upload demo_fs) as H.
  cbv zeta in H. destruct H as (_ & _ & H).
  destruct (_separate_drums OUTPUT_DIR spleeter_ok 10 "t1" demo_upload demo_fs).1
    as [d|e] eqn:E1.
  2:{ vm_compute in E1. discriminate E1. }
  vm_compute in E1. injection E1 as <-.
  destruct H as (_ & _ & H).
  destruct (_convert_to_midi OUTPUT_DIR basic_pitch_ok "t1" _ _).1 as [m|e] eqn:E2.
  2:{ vm_compute in E2. discriminate E2. }
  vm_compute in E2. injection E2 as <-.
  destruct H as (_ & _ & H).
  destruct (_validate_outputs _ _ _).1 as [u|e] eqn:E3.
  2:{ vm_compute in E3. discriminate E3. }
  destruct H as [Hevs Hend].
  cbv zeta. rewrite Hevs, Hend. repeat split.
Defined.

(** ** The validation stage *)

(** The checks of [_validate_outputs] as one decision. *)
Lemma validate_outputs_eq (drum_path midi_path : path) (fs : FS) :
  _validate_outputs drum_path midi_path fs =
  (match fs !! drum_path with
   | None => Raise (FileNotFoundError ("Drum audio not found: " +:+ str drum_path))
   | Some dn =>
       if st_size dn <? 1000
       then Raise (ValueError ("Drum audio file too small: " +:+ str drum_path))
       else
         match fs !! midi_path with
         | None => Raise (FileNotFoundError ("MIDI file not found: " +:+ str midi_path))
         | Some mn =>
             if st_size mn <? 100
             then Raise (ValueError ("MIDI file too small: " +:+ str midi_path))
             else
               match mn with
               | File _ data =>
                   if decide (take 4 data = MThd) then Ok tt
                   else Raise (ValueError ("Invalid MIDI file format: "
                                             +:+ str midi_path))
               | Dir _ _ => Raise (IsADirectoryError midi_path)
               end
         end
   end, fs).
Proof.
  unfold _validate_outputs, bind, ask, try_, raise_if, raise, ret, exists_, stat, read4.
  cbv beta.
  destruct (fs !! drum_path) as [dn|] eqn:Hd; cbn; rewrite ?Hd; [|done].
  destruct (st_size dn <? 1000); cbn; [done|].
  destruct (fs !! midi_path) as [mn|] eqn:Hm; cbn; rewrite ?Hm; [|done].
  destruct (st_size mn <? 100); cbn; rewrite ?Hm; [done|].
  destruct mn as [t d|t z]; cbn; [|done].
  fold MThd. case_bool_decide; case_decide; done.
Qed.

(** C7. [_validate_outputs] changes nothing on disk and its result is fixed
    by the first check that fails, in this order: the drum audio exists; it
    has at least 1000 bytes; the MIDI file exists; it has at least 100
    bytes; its first four bytes are [MThd] (a directory there cannot be
    read and raises too). Each error carries the path of the file it is
    about; when no check fails the call returns. *)
Theorem validate_outputs_checks (drum_path midi_path : path) (fs : FS) :
  let r := _validate_outputs drum_path midi_path fs in
  r.2 = fs ∧
  (fs !! drum_path = None →
     r.1 = Raise (FileNotFoundError ("Drum audio not found: " +:+ str drum_path))) ∧
  (∀ dn, fs !! drum_path = Some dn → st_size dn < 1000 →
     r.1 = Raise (ValueError ("Drum audio file too small: " +:+ str drum_path))) ∧
  (∀ dn, fs !! drum_path = Some dn → 1000 ≤ st_size dn →
     (fs !! midi_path = None →
        r.1 = Raise (FileNotFoundError ("MIDI file not found: " +:+ str midi_path))) ∧
     (∀ mn, fs !! midi_path = Some mn → st_size mn < 100 →
        r.1 = Raise (ValueError ("MIDI file too small: " +:+ str midi_path))) ∧
     (∀ mn, fs !! midi_path = Some mn → 100 ≤ st_size mn →
        match mn with
        | File _ data =>
            (take 4 data ≠ MThd →
               r.1 = Raise (ValueError ("Invalid MIDI file format: " +:+ str midi_path))) ∧
            (take 4 data = MThd → r.1 = Ok tt)
        | Dir _ _ => r.1 = Raise (IsADirectoryError midi_path)
        end)).
Proof.
  cbv zeta. rewrite validate_outputs_eq. cbn [fst snd].
  split; [done|]. split; [intros ->; done|]. split.
  - intros dn -> Hs. destruct (Z.ltb_spec (st_size dn) 1000); [done|lia].
  - intros dn -> Hs. destruct (Z.ltb_spec (st_size dn) 1000); [lia|].
    split; [intros ->; done|]. split.
    + intros mn -> Hn. destruct (Z.ltb_spec (st_size mn) 100); [done|lia].
    + intros mn -> Hn. destruct (Z.ltb_spec (st_size mn) 100); [lia|].
      destruct mn as [t d|t z]; [|done].
      case_decide; split; intros; done.
Qed.

Lemma validate_outputs_checks_witness :
  (_validate_outputs (OUTPUT_DIR </> "t1_drums.wav") (OUTPUT_DIR </> "t1_drums.mid")
     validated_fs).1 = Ok tt.
Proof.
  pose proof (validate_outputs_checks (OUTPUT_DIR </> "t1_drums.wav")
                (OUTPUT_DIR </> "t1_drums.mid") validated_fs) as H.
  cbv zeta in H. destruct H as (_ & _ & _ & H).
  destruct (H (File 0 demo_wav)) as (_ & _ & H1);
    [vm_compute; reflexivity | vm_compute; discriminate |].
  destruct (H1 (File 0 demo_midi)) as (_ & H2);
    [vm_compute; reflexivity | vm_compute; discriminate |].
  apply H2. vm_compute. reflexivity.
Defined.

(** ** The scratch directory of the separation stage *)

(** C3, on a run where Spleeter returns without having written
    [drums.wav], and on one where it raises: [_separate_drums] raises and
    the scratch directory [<task_id>_stems] it created is still on disk.
    [shutil.rmtree] is only reached when the stage succeeds; on that path
    the directory is gone. *)
Theorem separate_drums_leaves_scratch_directory :
  let scratch := OUTPUT_DIR </> "t1_stems" in
  let missing := _separate_drums OUTPUT_DIR silent 10 "t1" demo_upload demo_fs in
  let crashed := _separate_drums OUTPUT_DIR crashing 10 "t1" demo_upload demo_fs in
  let succeeded := _separate_drums OUTPUT_DIR spleeter_ok 10 "t1" demo_upload demo_fs in
  exists_ demo_fs scratch = false ∧
  missing.1 = Raise (FileNotFoundError
    "Spleeter did not generate drums.wav at /tmp/drumextract/outputs/t1_stems/t1/drums.wav") ∧
  is_dir missing.2 scratch = true ∧
  crashed.1 = Raise (ExternalError "out of memory") ∧
  is_dir crashed.2 scratch = true ∧
  succeeded.1 = Ok (OUTPUT_DIR </> "t1_drums.wav") ∧
  exists_ succeeded.2 scratch = false.
Proof. vm_compute. repeat split; reflexivity. Qed.

(** ** The retention sweep under concurrent deletion *)

(** C9, on a disk with two files older than one hour. When the first is
    removed by someone else between the sweep's [stat] and its [unlink],
    [unlink] raises [FileNotFoundError], nothing catches it, and
    [cleanup_old_files] ends: no later pass runs and the second stale file
    stays. Left alone, the same two passes remove both files; and the same
    race on a directory entry is absorbed by the [try]/[except] around
    [shutil.rmtree]. *)
Theorem cleanup_old_files_dies_on_concurrent_unlink :
  let victim := UPLOAD_DIR </> "old.wav" in
  let other := OUTPUT_DIR </> "old_drums.mid" in
  let raced := cleanup_old_files
                 [(2 * HOUR, racing_removal victim); (2 * HOUR + 300000000, no_race)]
                 stale_fs in
  let quiet := cleanup_old_files
                 [(2 * HOUR, no_race); (2 * HOUR + 300000000, no_race)] stale_fs in
  let raced_dir := cleanup_old_files
                     [(2 * HOUR, racing_removal (UPLOAD_DIR </> "old_stems"));
                      (2 * HOUR + 300000000, no_race)] stale_dir_fs in
  raced.1 = (0%nat, Some (FileNotFoundError
    "[Errno 2] No such file or directory: '/tmp/drumextract/uploads/old.wav'")) ∧
  is_file raced.2 other = true ∧
  quiet.1 = (2%nat, None) ∧
  exists_ quiet.2 victim = false ∧ exists_ quiet.2 other = false ∧
  raced_dir.1 = (2%nat, None) ∧
  exists_ raced_dir.2 other = false.
Proof. vm_compute. repeat split; reflexivity. Qed.


(** ** The task registry under the handlers *)

Lemma alter_twice {A} (f g : A → A) (i : string) (m : gmap string A) :
  alter f i (alter g i m) = alter (f ∘ g) i m.
Proof.
  apply map_eq; intros j. destruct (decide (i = j)) as [->|Hne].
  - rewrite !lookup_alter_eq. by destruct (m !! j).
  - by rewrite !lookup_alter_ne.
Qed.

Lemma on_exception_registry task_id e w ws :
  task_registry (on_exception task_id e w ws).1.1 =
  alter (λ t, set_error (str_exn e) (set_status failed t)) task_id (task_registry w).
Proof. unfold on_exception. destruct (send_json ws _); reflexivity. Qed.

Lemma on_exception_fs task_id e w ws :
  fs (on_exception task_id e w ws).1.1 = fs w.
Proof. unfold on_exception. destruct (send_json ws _); reflexivity. Qed.

(** Whatever the generator does, the run rewrites the record of its own
    task only, and leaves it complete or failed. *)
Lemma stream_registry (g : gen) :
  ∀ task_id w ws,
    ∃ f : task → task,
      task_registry (stream g task_id w ws).1.1 = alter f task_id (task_registry w) ∧
      ∀ t, status (f t) = complete ∨ status (f t) = failed.
Proof.
  induction g as [ev k IH | A m k IH |]; intros task_id w ws; cbn [stream].
  - destruct (send_json ws _) as [ws'|e].
    + match goal with
      | |- context [update_task task_id (set_progress ?u) w] =>
          destruct (IH task_id (update_task task_id (set_progress u) w) ws')
            as (f & Hf & Hs);
          exists (f ∘ set_progress u)
      end.
      split; [|intros t; apply Hs]. rewrite Hf. apply alter_twice.
    + eexists. split; [rewrite on_exception_registry; reflexivity|]. intros t. by right.
  - destruct (m (fs w)) as [[a|e] fs'].
    + destruct (IH a task_id (with_fs fs' w) ws) as (f & Hf & Hs).
      exists f. split; [exact Hf | exact Hs].
    + eexists. split; [rewrite on_exception_registry; reflexivity|]. intros t. by right.
  - destruct (send_json ws _) as [ws'|e].
    + eexists. split; [reflexivity|]. intros t. by left.
    + eexists. split.
      * rewrite on_exception_registry. apply alter_twice.
      * intros t. by right.
Qed.

(** ** Upload

    C10. Once the extension has been accepted, an upload that ends in an
    error leaves no file at the upload path and the registry as it was; an
    upload that succeeds leaves the file and registers the task as
    [pending]. For a fresh identifier, the task is registered if and only
    if the upload succeeded. *)
Theorem upload_is_atomic (file : UploadFile) (uuid4 : string) (room : option nat)
    (w : World) :
  let file_ext := lower (filename_suffix (uf_filename file)) in
  let upload_path := UPLOAD_DIR </> (uuid4 +:+ file_ext) in
  let out := upload_audio file uuid4 room w in
  file_ext ∈ ALLOWED_EXTENSIONS →
  match out.1 with
  | Raise _ =>
      is_file (fs out.2) upload_path = false ∧
      task_registry out.2 = task_registry w
  | Ok response =>
      ur_task_id response = uuid4 ∧
      is_file (fs out.2) upload_path = true ∧
      task_registry out.2 =
        <[uuid4 := Task pending upload_path (uf_filename file) (clock w)
                     None None None None]> (task_registry w)
  end ∧
  (task_registry w !! uuid4 = None →
   (is_Some (task_registry out.2 !! uuid4) ↔ ∃ response, out.1 = Ok response)).
Proof.
  intros file_ext upload_path out Hext. subst out. unfold upload_audio.
  fold file_ext. rewrite (bool_decide_eq_true_2 _ Hext). cbn [negb].
  fold upload_path.
  assert (Hfail : ∀ (e : exn) (w' : World),
            task_registry w' = task_registry w →
            let out := (if exists_ (fs w') upload_path
                        then match unlink upload_path (fs w') with
                             | (Ok _, fs') =>
                                 (Raise (HTTPException 500 ("Upload failed: " +:+ str_exn e)),
                                  with_fs fs' w')
                             | (Raise e', fs') => (Raise e', with_fs fs' w')
                             end
                        else (Raise (HTTPException 500 ("Upload failed: " +:+ str_exn e)), w'))
                       : result UploadResponse * World in
            match out.1 with
            | Raise _ => is_file (fs out.2) upload_path = false ∧
                         task_registry out.2 = task_registry w
            | Ok _ => False
            end ∧
            (task_registry w !! uuid4 = None →
             (is_Some (task_registry out.2 !! uuid4) ↔ ∃ response : UploadResponse, out.1 = Ok response))).
  { intros e w' Hreg. cbv zeta. unfold exists_, unlink, is_file.
    destruct (fs w' !! upload_path) as [[t d|t z]|] eqn:Hl; cbn [fst snd fs with_fs task_registry].
    - rewrite lookup_delete_eq. split; [done|]. intros Hn. rewrite Hreg, Hn.
      split; [intros [? [=]] | intros [? [=]]].
    - rewrite Hl. split; [done|]. intros Hn. rewrite Hreg, Hn.
      split; [intros [? [=]] | intros [? [=]]].
    - rewrite Hl. split; [done|]. intros Hn. rewrite Hreg, Hn.
      split; [intros [? [=]] | intros [? [=]]]. }
  destruct (uf_read file) as [content|e].
  2:{ specialize (Hfail e w eq_refl).
      cbv zeta in Hfail. destruct Hfail as [H1 H2]. split; [|exact H2].
      destruct (if exists_ _ _ then _ else _) as [[r|e'] w'']; [done|exact H1]. }
  destruct (MAX_FILE_SIZE <? Z.of_nat (length content)).
  { specialize (Hfail (HTTPException 400 "File too large. Max size: 100.0MB") w eq_refl).
      cbv zeta in Hfail. destruct Hfail as [H1 H2]. split; [|exact H2].
      destruct (if exists_ _ _ then _ else _) as [[r|e'] w'']; [done|exact H1]. }
  destruct (write_file (clock w) room upload_path content (fs w)) as [[u|e] fs'] eqn:Hw.
  - cbn [fst snd task_registry with_registry with_fs fs].
    assert (fs' !! upload_path = Some (File (clock w) content)) as Hl.
    { unfold write_file in Hw.
      repeat case_match; simplify_eq; apply lookup_insert_eq. }
    split.
    + split; [done|]. split; [|done]. unfold is_file. by rewrite Hl.
    + intros _. rewrite lookup_insert_eq. split; eauto.
  - specialize (Hfail e (with_fs fs' w) eq_refl).
    cbv zeta in Hfail. destruct Hfail as [H1 H2]. split; [|exact H2].
    destruct (if exists_ _ _ then _ else _) as [[r|e'] w'']; [done|exact H1].
Qed.


Lemma upload_is_atomic_witness :
  is_file (fs (upload_audio demo_file "t2" (Some 1%nat) (demo_world pending)).2)
          (UPLOAD_DIR </> "t2.wav") = false.
Proof.
  pose proof (upload_is_atomic demo_file "t2" (Some 1%nat) (demo_world pending)) as H.
  cbv zeta in H. destruct H as [H _].
  { vm_compute. constructor. }
  assert (E : (upload_audio demo_file "t2" (Some 1%nat) (demo_world pending)).1 =
              Raise (HTTPException 500
                       "Upload failed: [Errno 28] No space left on device")).
  { vm_compute. reflexivity. }
  rewrite E in H. apply H.
Defined.

(** ** Single flight

    C5. A subscription to a task that is processing is refused with the
    frame "Task already processing": the world (registry and disk) is left
    exactly as it was, no pipeline is started, the refusal goes to the
    second connection only, and whatever remains of the first
    subscription's run proceeds as it would have. *)
Theorem second_subscription_is_refused
    (separate_to_file predict_and_save : path → path → M unit)
    (ws2 : WebSocket) (task_id : string) (w : World) (t : task) :
  task_registry w !! task_id = Some t →
  status t = processing →
  let conflict := ErrorFrame "Task already processing" None task_id None in
  let out := process_audio separate_to_file predict_and_save ws2 task_id w in
  begin_subscription task_id w = Refused conflict ∧
  out.1.1 = w ∧
  (∀ ws2', send_json ws2 conflict = Ok ws2' →
           out.1.2 = close ws2' ∧ sent ws2' = sent ws2 ++ [conflict]) ∧
  (∀ g ws1, stream g task_id out.1.1 ws1 = stream g task_id w ws1).
Proof.
  intros Ht Hs conflict out.
  assert (Ha : begin_subscription task_id w = Refused conflict).
  { unfold begin_subscription. rewrite Ht. by rewrite decide_True. }
  assert (Hw : out.1.1 = w).
  { subst out. unfold process_audio. rewrite Ha. by destruct (send_json ws2 conflict). }
  split; [exact Ha|]. split; [exact Hw|]. split.
  - intros ws2' Hsend. subst out. unfold process_audio. rewrite Ha, Hsend.
    split; [done|]. unfold send_json in Hsend.
    destruct (budget ws2) as [[|n]|]; simplify_eq; done.
  - intros g ws1. by rewrite Hw.
Qed.

Lemma second_subscription_is_refused_witness :
  begin_subscription "t1" (demo_world processing) =
  Refused (ErrorFrame "Task already processing" None "t1" None).
Proof.
  apply (second_subscription_is_refused spleeter_ok basic_pitch_ok client_stays
           "t1" (demo_world processing) (demo_task processing)).
  - vm_compute. reflexivity.
  - reflexivity.
Defined.

(** ** Status transitions

    C1 fails on a new subscription to a finished task: a task that is
    complete is set back to [processing], because the guard of
    [process_audio] only refuses a task that is processing. *)
Lemma status_reversed_by_resubscription : ¬ subscription_never_reverses.
Proof.
  intros H.
  specialize (H "t1" (demo_world complete) demo_upload
                (update_task "t1" (set_status processing) (demo_world complete))
                complete processing).
  destruct H as [H|H].
  - unfold begin_subscription. cbn [task_registry demo_world].
    rewrite lookup_singleton_eq. reflexivity.
  - unfold status_of. cbn [task_registry demo_world].
    by rewrite lookup_singleton_eq.
  - unfold status_of, update_task. cbn [task_registry demo_world with_registry].
    by rewrite lookup_alter_eq, lookup_singleton_eq.
  - discriminate H.
  - cbn in H. lia.
Qed.

(** What the writers do to the registry. *)
Lemma upload_registry file uuid4 room w :
  let out := upload_audio file uuid4 room w in
  task_registry out.2 = task_registry w ∨
  ∃ t, status t = pending ∧ task_registry out.2 = <[uuid4 := t]> (task_registry w).
Proof.
  cbv zeta. unfold upload_audio. case_match; [by left|].
  destruct (uf_read file) as [content|e].
  2:{ left. repeat case_match; simplify_eq; done. }
  destruct (MAX_FILE_SIZE <? Z.of_nat (length content)).
  { left. repeat case_match; simplify_eq; done. }
  destruct (write_file _ _ _ _ _) as [[u|e] fs'].
  - right. eexists. split; [|reflexivity]. done.
  - left. repeat case_match; simplify_eq; done.
Qed.

Lemma cancel_registry task_id w :
  task_registry (cancel_task task_id w).2 = task_registry w ∨
  task_registry (cancel_task task_id w).2 = delete task_id (task_registry w).
Proof.
  unfold cancel_task. destruct (task_registry w !! task_id); [|by left].
  destruct (bind _ _ (fs w)) as [[u|e] fs']; [by right|by left].
Qed.

(** C1, amended. Each writer of the registry (an upload under a fresh
    identifier, the admission of a subscription, the run of a task that is
    processing taken as a whole, a cancellation) leaves the status of a task
    that stays registered where it was, or moves it from pending to
    processing, from processing to complete or failed, or, on a new
    subscription, from complete or failed back to processing. None returns
    a task to [pending]. *)
Theorem status_transitions (w w' : World) :
  step w w' →
  ∀ task_id s s',
    status_of task_id w = Some s →
    status_of task_id w' = Some s' →
    status_step s s'.
Proof.
  unfold status_of. intros Hstep tid s s'. destruct Hstep as
    [file uuid4 room w Hfresh | tid0 w up w' Ha | g tid0 ws w Hp | tid0 w].
  - intros Hs Hs'. destruct (upload_registry file uuid4 room w) as [Hr|(t & Ht & Hr)];
      rewrite Hr in Hs'.
    + left. congruence.
    + destruct (decide (uuid4 = tid)) as [->|Hne].
      * rewrite Hfresh in Hs. discriminate.
      * rewrite lookup_insert_ne in Hs' by done. left. congruence.
  - unfold begin_subscription in Ha. destruct (task_registry w !! tid0) as [t|] eqn:Ht; [|done].
    destruct (decide (status t = processing)) as [|Hnp]; [done|].
    injection Ha as _ <-. unfold update_task. cbn [task_registry with_registry].
    destruct (decide (tid0 = tid)) as [->|Hne].
    + rewrite lookup_alter_eq, Ht. cbn. intros [= <-] [= <-].
      destruct (status t); [right; left; done|done|right; right; right; eauto..].
    + rewrite lookup_alter_ne by done. intros Hs Hs'. left. congruence.
  - destruct (stream_registry g tid0 w ws) as (f & Hf & Hfin).
    rewrite Hf. unfold status_of in Hp.
    destruct (decide (tid0 = tid)) as [->|Hne].
    + rewrite lookup_alter_eq. destruct (task_registry w !! tid) as [t|]; [|done].
      cbn in *. intros [= <-] [= <-]. injection Hp as Hp.
      right; right; left. split; [done|]. apply Hfin.
    + rewrite lookup_alter_ne by done. intros Hs Hs'. left. congruence.
  - intros Hs Hs'. destruct (cancel_registry tid0 w) as [Hr|Hr]; rewrite Hr in Hs'.
    + left. congruence.
    + destruct (decide (tid0 = tid)) as [->|Hne].
      * rewrite lookup_delete_eq in Hs'. discriminate.
      * rewrite lookup_delete_ne in Hs' by done. left. congruence.
Qed.

Lemma status_transitions_witness :
  status_step complete processing.
Proof.
  apply (status_transitions (demo_world complete)
           (update_task "t1" (set_status processing) (demo_world complete))
           (step_subscribe "t1" (demo_world complete) demo_upload _ eq_refl) "t1").
  - vm_compute. reflexivity.
  - vm_compute. reflexivity.
Defined.

(** ** Disconnection

    C2 fails: with the same collaborators and the same task, a client that
    stays sees the task complete, and a client that leaves after the first
    frame leaves it failed. *)
Lemma disconnect_changes_the_outcome : ¬ disconnect_is_harmless.
Proof.
  intros H.
  specialize (H spleeter_ok basic_pitch_ok "t1" (demo_world pending)
                (client_leaves_after 1) client_stays eq_refl).
  vm_compute in H. discriminate H.
Qed.

Lemma send_json_gone ws f : budget ws = Some O → send_json ws f = Raise (ExternalError (fault ws)).
Proof. unfold send_json. by intros ->. Qed.

Lemma send_json_alive ws f n :
  budget ws = Some (S n) →
  send_json ws f = Ok {| sent := sent ws ++ [f]; budget := Some n;
                         fault := fault ws; closed := closed ws |}.
Proof. unfold send_json. by intros ->. Qed.

(** C2, amended. When the client goes away before the run has delivered
    all its progress events, the run ends at the event that cannot be
    delivered: the record is set to failed with the delivery error as its
    error, that error escapes the handler, and the disk is the one the
    generator had reached at that event; it is not resumed. *)
Theorem delivery_failure_fails_the_task (g : gen) :
  ∀ (task_id : string) (w : World) (ws : WebSocket) (n : nat) (t : task),
    budget ws = Some n →
    (n < length (run_gen g (fs w)).1.1)%nat →
    task_registry w !! task_id = Some t →
    let out := stream g task_id w ws in
    status_of task_id out.1.1 = Some failed ∧
    error_of task_id out.1.1 = Some (fault ws) ∧
    out.2 = Some (ExternalError (fault ws)) ∧
    length (sent out.1.2) = (length (sent ws) + n)%nat ∧
    fs out.1.1 = fs_after n g (fs w).
Proof.
  induction g as [ev k IH | A m k IH |]; intros task_id w ws n t Hb Hn Ht;
    cbn [stream fs_after].
  - destruct n as [|n].
    + rewrite (send_json_gone _ _ Hb). unfold on_exception.
      rewrite (send_json_gone _ _ Hb). cbn [fst snd].
      unfold status_of, error_of, update_task.
      cbn [task_registry with_registry fs close sent].
      rewrite lookup_alter_eq, Ht. cbn. repeat split; (done || lia).
    + rewrite (send_json_alive _ _ _ Hb).
      match goal with
      | |- context [stream k task_id ?w1 ?ws1] =>
          specialize (IH task_id w1 ws1 n
                        (set_progress (progress_update task_id ev (clock w)) t)
                        eq_refl)
      end.
      cbn [run_gen] in Hn. destruct (run_gen k (fs w)) as [[evs r] fs'] eqn:Hr.
      cbn in Hn. cbv zeta in IH. cbn [fs update_task with_registry] in IH.
      rewrite Hr in IH. destruct IH as (H1 & H2 & H3 & H4 & H5).
      { cbn. lia. }
      { unfold update_task. cbn [task_registry with_registry]. by rewrite lookup_alter_eq, Ht. }
      cbn [fault sent] in *.
      split; [exact H1|]. split; [exact H2|]. split; [exact H3|]. split; [|exact H5].
      etrans; [exact H4|]. rewrite length_app. cbn. lia.
  - cbn [run_gen] in Hn. destruct (m (fs w)) as [[a|e] fs'] eqn:Hm.
    + specialize (IH a task_id (with_fs fs' w) ws n t Hb). apply IH; [exact Hn|exact Ht].
    + cbn in Hn. lia.
  - cbn in Hn. lia.
Qed.

Lemma delivery_failure_fails_the_task_witness :
  status_of "t1"
    (stream (pipeline_process spleeter_ok basic_pitch_ok 10 "t1" demo_upload) "t1"
       (demo_world processing) (client_leaves_after 1)).1.1 = Some failed.
Proof.
  apply (delivery_failure_fails_the_task
           (pipeline_process spleeter_ok basic_pitch_ok 10 "t1" demo_upload)
           "t1" (demo_world processing) (client_leaves_after 1) 1
           (demo_task processing)).
  - reflexivity.
  - vm_compute. lia.
  - vm_compute. reflexivity.
Defined.

(** ** Paths and names *)

Lemma name_join (p : path) (n : string) : name (p </> n) = n.
Proof. unfold name, path_join. apply last_last. Qed.

Lemma append_cons (c : ascii) (a b : string) :
  String c a +:+ b = String c (a +:+ b).
Proof. reflexivity. Qed.

Lemma append_assoc_str (a b c : string) : (a +:+ b) +:+ c = a +:+ (b +:+ c).
Proof. induction a as [|x a IH]; [done|]. rewrite !append_cons. by f_equal. Qed.

Lemma rpartition_dot_wav (s : string) :
  rpartition_dot (s +:+ ".wav") = Some (s, "wav").
Proof.
  induction s as [|c s IH]; [done|].
  rewrite append_cons. cbn [rpartition_dot]. by rewrite IH.
Qed.

Lemma stem_drums_wav (out : path) (task_id : string) :
  stem (out </> (task_id +:+ "_drums.wav")) = task_id +:+ "_drums".
Proof.
  unfold stem, stem_of_name. rewrite name_join.
  change "_drums.wav" with ("_drums" +:+ ".wav").
  rewrite <- append_assoc_str, rpartition_dot_wav.
  by destruct task_id.
Qed.

Lemma scratch_name_differs (task_id : string) :
  task_id +:+ "_stems" ≠ task_id +:+ "_drums.wav".
Proof.
  induction task_id as [|c s IH]; [done|].
  rewrite !append_cons. intros [=]. done.
Qed.

Lemma prefix_same_length (p q : path) :
  p `prefix_of` q → length p = length q → p = q.
Proof.
  intros [k ->] Hl. rewrite length_app in Hl.
  destruct k; [by rewrite app_nil_r|cbn in Hl; lia].
Qed.

Lemma siblings_not_under (d : path) (a b : string) :
  a ≠ b → ¬ under (d </> a) (d </> b).
Proof.
  intros Hne Hp. apply prefix_same_length in Hp.
  - unfold path_join in Hp. apply app_inv_head in Hp. congruence.
  - unfold path_join. by rewrite !length_app.
Qed.

(** ** Filesystem primitives *)

Lemma rmtree_frame (p q : path) (fs : FS) :
  ¬ under p q → (rmtree p fs).2 !! q = fs !! q.
Proof.
  intros Hn. unfold rmtree. destruct (fs !! p) as [[]|]; cbn [snd]; try done.
  destruct (fs !! q) as [n|] eqn:Hq.
  - by apply map_lookup_filter_Some.
  - apply map_lookup_filter_None. by left.
Qed.

Lemma rename_ok_exists (src dst : path) (fs : FS) :
  (rename src dst fs).1 = Ok tt → exists_ (rename src dst fs).2 dst = true.
Proof.
  unfold rename, exists_.
  destruct (fs !! src) as [n|] eqn:Hs; [|done].
  destruct (decide (src = dst)) as [<-|Hne]; cbn [fst snd]; [by rewrite Hs|].
  assert (Hmove : ∀ n', fs !! src = Some n' →
            is_Some (move_tree src dst fs !! dst)).
  { intros n' Hn'. apply not_eq_None_Some. intros Hnone.
    apply not_elem_of_list_to_map in Hnone. apply Hnone.
    apply list_elem_of_fmap. exists (dst, n'). split; [done|].
    apply list_elem_of_fmap. exists (src, n'). split.
    - unfold prod_map, rekey. cbn. rewrite decide_True by done.
      by rewrite drop_all, app_nil_r.
    - apply elem_of_map_to_list. apply map_lookup_filter_Some. done. }
  destruct n as [t d|t z]; destruct (fs !! dst) as [[t' d'|t' z']|] eqn:Hd;
    cbn [fst snd]; try done; rewrite ?lookup_insert_eq; try done.
  - destruct (is_empty_dir fs dst); cbn [fst snd]; [|done].
    intros _. by destruct (Hmove _ Hs) as [? ->].
  - intros _. by destruct (Hmove _ Hs) as [? ->].
Qed.

(** ** The separation stage when it succeeds *)

Lemma bind_ok {A B} (m : M A) (k : A → M B) (fs : FS) (b : B) :
  (bind m k fs).1 = Ok b →
  ∃ a, (m fs).1 = Ok a ∧ bind m k fs = k a (m fs).2.
Proof.
  unfold bind. destruct (m fs) as [[a|e] fs']; cbn; [|done]. eauto.
Qed.

Lemma separate_drums_ok output_dir separate_to_file now task_id audio_path fs d :
  (_separate_drums output_dir separate_to_file now task_id audio_path fs).1 = Ok d →
  d = output_dir </> (task_id +:+ "_drums.wav") ∧
  exists_ (_separate_drums output_dir separate_to_file now task_id audio_path fs).2 d
    = true.
Proof.
  unfold _separate_drums. intros H.
  apply bind_ok in H as H1. destruct H1 as (u1 & _ & E1). rewrite E1 in H |- *. clear E1.
  apply bind_ok in H as H1. destruct H1 as (u2 & _ & E1). rewrite E1 in H |- *. clear E1.
  set (fs2 := (separate_to_file _ _ _).2) in *. clearbody fs2.
  apply bind_ok in H as H1. destruct H1 as (found & _ & E1). rewrite E1 in H |- *. clear E1.
  cbn [ask snd] in *.
  apply bind_ok in H as H1. destruct H1 as (u3 & _ & E1). rewrite E1 in H |- *. clear E1.
  set (fs3 := (raise_if _ _ _).2) in *. clearbody fs3.
  apply bind_ok in H as H1. destruct H1 as ([] & Hren & E1). rewrite E1 in H |- *. clear E1.
  apply rename_ok_exists in Hren.
  set (fs4 := (rename _ _ _).2) in *. clearbody fs4.
  apply bind_ok in H as H1. destruct H1 as (u5 & _ & E1). rewrite E1 in H |- *. clear E1.
  cbn [ret fst snd] in *. injection H as <-. split; [done|].
  unfold exists_ in *. rewrite rmtree_frame; [done|].
  apply siblings_not_under, scratch_name_differs.
Qed.


(** ** A transcription that produces no file *)

Lemma send_json_ok (ws : WebSocket) (f : frame) :
  budget ws ≠ Some O → send_json ws f = Ok (delivered ws f).
Proof.
  unfold send_json, delivered. destruct (budget ws) as [[|n]|]; done.
Qed.

Lemma convert_to_midi_missing output_dir predict_and_save task_id drum_path fs :
  let generated := output_dir </> (stem drum_path +:+ "_basic_pitch.mid") in
  (predict_and_save drum_path output_dir fs).1 = Ok tt →
  exists_ (predict_and_save drum_path output_dir fs).2 generated = false →
  _convert_to_midi output_dir predict_and_save task_id drum_path fs =
  (Raise (FileNotFoundError ("Basic-Pitch did not generate MIDI at " +:+ str generated)),
   (predict_and_save drum_path output_dir fs).2).
Proof.
  intros generated Hrun Hnone.
  unfold _convert_to_midi, _run_basic_pitch, bind, ask, raise_if, raise.
  destruct (predict_and_save drum_path output_dir fs) as [[[]|e] fs'];
    cbn [fst snd] in *; [|done].
  fold generated. by rewrite Hnone.
Qed.

Lemma stream_yield (task_id : string) (ev : event) (k : gen) (w : World)
    (ws : WebSocket) :
  budget ws ≠ Some O →
  stream (Yield ev k) task_id w ws =
  stream k task_id
    (update_task task_id (set_progress (progress_update task_id ev (clock w))) w)
    (delivered ws (ProgressFrame (progress_update task_id ev (clock w)))).
Proof. intros Hb. cbn [stream]. by rewrite send_json_ok. Qed.

Lemma stream_await {A} (m : M A) (k : A → gen) (task_id : string) (w : World)
    (ws : WebSocket) :
  stream (Await m k) task_id w ws =
  match (m (fs w)).1 with
  | Ok a => stream (k a) task_id (with_fs (m (fs w)).2 w) ws
  | Raise e => on_exception task_id e (with_fs (m (fs w)).2 w) ws
  end.
Proof. cbn [stream]. by destruct (m (fs w)) as [[a|e] fs']. Qed.

Lemma append_empty_r (s : string) : s +:+ "" = s.
Proof. induction s as [|c s IH]; [done|]. rewrite append_cons. by f_equal. Qed.

Lemma mentions_suffix (a b : string) : mentions (a +:+ b) b.
Proof. exists a, "". by rewrite append_empty_r. Qed.

Lemma task_registry_update_task task_id f w :
  task_registry (update_task task_id f w) = alter f task_id (task_registry w).
Proof. reflexivity. Qed.

Lemma task_registry_with_fs f w : task_registry (with_fs f w) = task_registry w.
Proof. reflexivity. Qed.

(** C8. A task that is not already processing is subscribed to by a client
    that takes at least the three frames sent before transcription starts.
    The separation stage succeeds with the path [d]; the transcription
    collaborator returns normally, has written nothing at the path
    Basic-Pitch is expected to write, and has left the separated audio as it
    was. Then [d] is the normalized path [<task_id>_drums.wav], the task
    ends failed with an error that mentions the missing path, and the
    separated audio is still on disk at [d]. *)
Theorem missing_midi_fails_task_and_keeps_drums
    (separate_to_file predict_and_save : path → path → M unit)
    (ws : WebSocket) (task_id : string) (w : World) (t : task) (d : path) :
  let drums := OUTPUT_DIR </> (task_id +:+ "_drums.wav") in
  let generated := OUTPUT_DIR </> (task_id +:+ "_drums_basic_pitch.mid") in
  let separated :=
    _separate_drums OUTPUT_DIR separate_to_file (clock w) task_id (upload_path t)
      (fs w) in
  let transcribed := predict_and_save d OUTPUT_DIR separated.2 in
  task_registry w !! task_id = Some t →
  status t ≠ processing →
  (∀ n, budget ws = Some n → (3 ≤ n)%nat) →
  separated.1 = Ok d →
  transcribed.1 = Ok tt →
  exists_ transcribed.2 generated = false →
  transcribed.2 !! d = separated.2 !! d →
  let out := process_audio separate_to_file predict_and_save ws task_id w in
  d = drums ∧
  status_of task_id out.1.1 = Some failed ∧
  (∃ msg, error_of task_id out.1.1 = Some msg ∧ mentions msg (str generated)) ∧
  exists_ (fs out.1.1) drums = true.
Proof.
  intros drums generated separated transcribed Ht Hnp Hb Hsep Hrun Hnone Hkeep out.
  destruct (separate_drums_ok _ _ _ _ _ _ _ Hsep) as [Hd Hex]. fold separated in Hex.
  split; [exact Hd|].
  assert (Hgen : OUTPUT_DIR </> (stem d +:+ "_basic_pitch.mid") = generated).
  { rewrite Hd. unfold drums. rewrite stem_drums_wav. unfold generated.
    by rewrite append_assoc_str. }
  pose proof (convert_to_midi_missing OUTPUT_DIR predict_and_save task_id d
                separated.2) as Hc.
  cbv zeta in Hc. rewrite Hgen in Hc. specialize (Hc Hrun Hnone).
  set (msg := "Basic-Pitch did not generate MIDI at " +:+ str generated) in *.
  assert (Hout : ∃ (R : gmap string task) (t' : task),
            task_registry out.1.1 =
              alter (λ t, set_error msg (set_status failed t)) task_id R ∧
            R !! task_id = Some t' ∧
            fs out.1.1 = transcribed.2).
  { subst out. unfold process_audio, begin_subscription. rewrite Ht, decide_False by done.
    unfold pipeline_process, process.
    rewrite stream_yield by (intros Hz; apply Hb in Hz; lia).
    rewrite stream_await. cbn [fs update_task with_registry with_fs].
    fold separated. rewrite Hsep.
    rewrite stream_yield
      by (cbn; destruct (budget ws) as [n|]; [|done]; specialize (Hb n eq_refl);
          destruct n as [|[|n]]; cbn; [lia..|done]).
    rewrite stream_yield
      by (cbn; destruct (budget ws) as [n|]; [|done]; specialize (Hb n eq_refl);
          destruct n as [|[|[|n]]]; cbn; [lia..|done]).
    rewrite stream_await. cbn [fs update_task with_registry with_fs].
    rewrite Hc. cbn [fst snd].
    rewrite on_exception_registry, on_exception_fs.
    repeat (rewrite task_registry_with_fs || rewrite task_registry_update_task).
    eexists _, _. split; [reflexivity|]. split; [|reflexivity].
    rewrite !lookup_alter_eq, Ht. reflexivity. }
  destruct Hout as (R & t' & Hreg & HR & Hfs).
  unfold status_of, error_of. rewrite Hreg, Hfs, !lookup_alter_eq, HR.
  split; [reflexivity|]. split.
  - exists msg. split; [reflexivity|]. apply mentions_suffix.
  - subst drums. rewrite <- Hd. unfold exists_ in *. by rewrite Hkeep.
Qed.

Lemma missing_midi_fails_task_and_keeps_drums_witness :
  let out := process_audio spleeter_ok silent client_stays "t1" (demo_world pending) in
  status_of "t1" out.1.1 = Some failed ∧
  exists_ (fs out.1.1) (OUTPUT_DIR </> "t1_drums.wav") = true.
Proof.
  pose proof (missing_midi_fails_task_and_keeps_drums spleeter_ok silent client_stays
                "t1" (demo_world pending) (demo_task pending)
                (OUTPUT_DIR </> "t1_drums.wav")) as H.
  cbv zeta in H. cbv zeta.
  destruct H as (_ & Hs & _ & Hx).
  - vm_compute. reflexivity.
  - discriminate.
  - intros n. discriminate.
  - vm_compute. reflexivity.
  - vm_compute. reflexivity.
  - vm_compute. reflexivity.
  - vm_compute. reflexivity.
  - split; [exact Hs|exact Hx].
Defined.

(** ** The retention sweep and a directory made a moment ago *)

(** C4, on an output directory that holds a scratch directory made at the
    very moment of the pass, with a stem directory in it, beside a regular
    file of the same age. The pass keeps the regular file, which is not
    older than one hour, and removes the scratch directory with what is in
    it: the directory branch of [cleanup_old_files] never looks at the
    modification time, where the file branch does and the docstring says
    "older than 1 hour". So a pass does not remove exactly the entries older
    than one hour. *)
Theorem fresh_directory_is_swept :
  let now := 2 * HOUR in
  let scratch := OUTPUT_DIR </> "t1_stems" in
  let kept := OUTPUT_DIR </> "t0_drums.wav" in
  let out := cleanup_pass no_race now fresh_dir_fs in
  (st_mtime <$> fresh_dir_fs !! scratch) = Some now ∧
  (st_mtime <$> fresh_dir_fs !! kept) = Some now ∧
  is_dir fresh_dir_fs scratch = true ∧
  out.1 = Ok tt ∧
  is_file out.2 kept = true ∧
  exists_ out.2 scratch = false ∧
  exists_ out.2 (scratch </> "t1") = false ∧
  ¬ sweep_removes_exactly_the_old.
Proof.
  cbv zeta. do 7 (split; [vm_compute; reflexivity|]).
  intros H.
  specialize (H (2 * HOUR) fresh_dir_fs OUTPUT_DIR (children fresh_dir_fs OUTPUT_DIR)
                (OUTPUT_DIR </> "t1_stems") (Dir (2 * HOUR) 4096)).
  destruct H as [H _].
  - apply list_elem_of_In. vm_compute. auto.
  - vm_compute. reflexivity.
  - apply list_elem_of_In. vm_compute. auto.
  - vm_compute. reflexivity.
  - cbn [st_mtime] in H. unfold HOUR in H.
    assert (exists_ (cleanup_pass no_race (2 * (3600 * 1000000)) fresh_dir_fs).2
              (OUTPUT_DIR </> "t1_stems") = false) as E by (vm_compute; reflexivity).
    specialize (H E). lia.
Qed.


(** * Further properties of the handlers and the pipeline *)

(** ** File names: stem and suffix *)

Lemma rpartition_dot_Some (n : string) :
  ∀ a b, rpartition_dot n = Some (a, b) → n = a +:+ "." +:+ b.
Proof.
  induction n as [|c r IH]; intros a b; cbn [rpartition_dot]; [done|].
  destruct (rpartition_dot r) as [[a' b']|].
  - intros [= <- <-]. rewrite append_cons. f_equal. by apply IH.
  - destruct (Ascii.eqb_spec c "."%char) as [->|]; [|done].
    by intros [= <- <-].
Qed.

Lemma rpartition_dot_last (n : string) :
  ∀ a b, rpartition_dot n = Some (a, b) → rpartition_dot b = None.
Proof.
  induction n as [|c r IH]; intros a b; cbn [rpartition_dot]; [done|].
  destruct (rpartition_dot r) as [[a' b']|] eqn:Hr.
  - intros [= <- <-]. by eapply IH.
  - destruct (Ascii.eqb c "."%char); [|done]. by intros [= <- <-].
Qed.

Lemma rpartition_dot_append (s b : string) :
  rpartition_dot b = None → rpartition_dot (s +:+ "." +:+ b) = Some (s, b).
Proof.
  intros Hb. induction s as [|c s IH].
  - change ("" +:+ "." +:+ b) with (String "."%char b).
    cbn [rpartition_dot]. by rewrite Hb.
  - rewrite append_cons. cbn [rpartition_dot]. by rewrite IH.
Qed.

(** [stem] and [suffix] split a name without losing anything, and a
    suffix, when there is one, is the last dot followed by a non-empty
    dot-free extension. *)
Lemma stem_suffix_roundtrip (n : string) :
  stem_of_name n +:+ suffix_of_name n = n ∧
  (suffix_of_name n = "" ∨
   ∃ ext, suffix_of_name n = "." +:+ ext ∧ ext ≠ "" ∧ rpartition_dot ext = None
          ∧ stem_of_name n ≠ "").
Proof.
  unfold stem_of_name, suffix_of_name.
  destruct (rpartition_dot n) as [[a b]|] eqn:Hn.
  - destruct a as [|c a]; cbn [nonempty andb].
    + split; [apply append_empty_r | by left].
    + destruct b as [|c' b]; cbn [nonempty andb].
      * split; [apply append_empty_r | by left].
      * split; [symmetry; by apply rpartition_dot_Some|].
        right. eexists. split; [reflexivity|]. split; [done|].
        split; [by eapply rpartition_dot_last|done].
  - split; [apply append_empty_r | by left].
Qed.

(** X1. The file an upload is stored under is named after the task: for
    every accepted extension and every non-empty identifier, the stem of
    the upload path is the identifier and its suffix the extension. *)
Theorem upload_path_stem (task_id ext : string) :
  ext ∈ ALLOWED_EXTENSIONS →
  task_id ≠ "" →
  stem (UPLOAD_DIR </> (task_id +:+ ext)) = task_id ∧
  suffix_of_name (name (UPLOAD_DIR </> (task_id +:+ ext))) = ext.
Proof.
  intros Hext Hid. unfold stem. rewrite name_join.
  assert (∃ b, ext = "." +:+ b ∧ rpartition_dot b = None ∧ b ≠ "") as (b & -> & Hb & Hne).
  { unfold ALLOWED_EXTENSIONS in Hext.
    repeat (apply elem_of_cons in Hext as [->|Hext];
            [eexists; split; [reflexivity|]; split; [reflexivity|done]|]).
    by apply not_elem_of_nil in Hext. }
  unfold stem_of_name, suffix_of_name. rewrite (rpartition_dot_append _ _ Hb).
  destruct task_id; [done|]. destruct b; [done|]. done.
Qed.

Lemma upload_path_stem_witness :
  stem (UPLOAD_DIR </> ("t1" +:+ ".flac")) = "t1".
Proof.
  apply (upload_path_stem "t1" ".flac").
  - apply list_elem_of_In. vm_compute. auto.
  - discriminate.
Defined.

(** ** Upload, status query, download *)

Lemma upload_ok_registry file uuid4 room w response :
  (upload_audio file uuid4 room w).1 = Ok response →
  ur_task_id response = uuid4 ∧
  task_registry (upload_audio file uuid4 room w).2 =
    <[uuid4 := Task pending
                 (UPLOAD_DIR </> (uuid4 +:+ lower (filename_suffix (uf_filename file))))
                 (uf_filename file) (clock w) None None None None]>
      (task_registry w).
Proof.
  unfold upload_audio. case_match; [done|].
  destruct (uf_read file) as [content|e].
  2:{ repeat case_match; simplify_eq; done. }
  destruct (MAX_FILE_SIZE <? Z.of_nat (length content)).
  { repeat case_match; simplify_eq; done. }
  destruct (write_file _ _ _ _ _) as [[u|e] fs'].
  - cbn. by intros [= <-].
  - repeat case_match; simplify_eq; done.
Qed.

(** X2. A task that has just been uploaded is reported as pending, with no
    progress, no download reference and no error, and both downloads
    answer "Processing not complete". *)
Theorem upload_then_status (file : UploadFile) (uuid4 : string) (room : option nat)
    (w : World) (response : UploadResponse) :
  (upload_audio file uuid4 room w).1 = Ok response →
  let w' := (upload_audio file uuid4 room w).2 in
  get_status (ur_task_id response) w' =
    Ok {| ts_task_id := uuid4; ts_status := pending; ts_progress := None;
          ts_midi_url := None; ts_drum_url := None; ts_error := None |} ∧
  download_midi (ur_task_id response) w' =
    Raise (HTTPException 400 "Processing not complete") ∧
  download_drum_audio (ur_task_id response) w' =
    Raise (HTTPException 400 "Processing not complete").
Proof.
  intros Hok. destruct (upload_ok_registry _ _ _ _ _ Hok) as [-> Hreg]. cbv zeta.
  unfold get_status, download_midi, download_drum_audio, download.
  rewrite Hreg, lookup_insert_eq. done.
Qed.

Lemma upload_then_status_witness :
  ts_status <$>
    match get_status "t2" (upload_audio demo_file "t2" None (demo_world pending)).2 with
    | Ok r => Some r
    | Raise _ => None
    end = Some pending.
Proof.
  pose proof (upload_then_status demo_file "t2" None (demo_world pending)
                {| ur_task_id := "t2"; ur_status := "success";
                   ur_message := "File uploaded successfully. Connect to /ws/process/t2" |})
    as H.
  cbv zeta in H. destruct H as (H & _ & _); [vm_compute; reflexivity|].
  cbn [ur_task_id] in H. rewrite H. reflexivity.
Defined.

(** X3. Before anything is read or written, an upload whose extension
    (compared in lower case) is not an accepted one is refused with status
    400 and the world is left as it was. Once the extension is accepted,
    every failure (a failed read, the oversize rejection, a failed write)
    comes out of the handler as status 500 "Upload failed: ..."; the only
    other error is the one [unlink] raises when the upload path is a
    directory. *)
Theorem upload_error_codes (file : UploadFile) (uuid4 : string) (room : option nat)
    (w : World) :
  let file_ext := lower (filename_suffix (uf_filename file)) in
  let upload_path := UPLOAD_DIR </> (uuid4 +:+ file_ext) in
  (file_ext ∉ ALLOWED_EXTENSIONS →
   ∃ detail, upload_audio file uuid4 room w = (Raise (HTTPException 400 detail), w)) ∧
  (file_ext ∈ ALLOWED_EXTENSIONS →
   ∀ e, (upload_audio file uuid4 room w).1 = Raise e →
        (∃ cause, e = HTTPException 500 ("Upload failed: " +:+ cause)) ∨
        (e = IsADirectoryError upload_path ∧ is_dir (fs w) upload_path = true)).
Proof.
  cbv zeta. split.
  - intros Hext. unfold upload_audio. rewrite (bool_decide_eq_false_2 _ Hext).
    cbn [negb]. eexists. reflexivity.
  - intros Hext e. unfold upload_audio. rewrite (bool_decide_eq_true_2 _ Hext).
    cbn [negb].
    set (upload_path := UPLOAD_DIR </> _).
    assert (Hfail : ∀ (cause : exn) (w' : World),
              (is_dir (fs w') upload_path = true → is_dir (fs w) upload_path = true) →
              (if exists_ (fs w') upload_path
               then match unlink upload_path (fs w') with
                    | (Ok _, fs') =>
                        (Raise (HTTPException 500 ("Upload failed: " +:+ str_exn cause)),
                         with_fs fs' w')
                    | (Raise e', fs') => (Raise e', with_fs fs' w')
                    end
               else (Raise (HTTPException 500 ("Upload failed: " +:+ str_exn cause)), w')
               : result UploadResponse * World).1 = Raise e →
              (∃ cause, e = HTTPException 500 ("Upload failed: " +:+ cause)) ∨
              (e = IsADirectoryError upload_path ∧ is_dir (fs w) upload_path = true)).
    { intros cause w' Hdir. unfold exists_, unlink, is_dir in *.
      destruct (fs w' !! upload_path) as [[t d|t z]|]; cbn [fst snd].
      - intros [= <-]. left. eauto.
      - intros [= <-]. right. split; [done|]. by apply Hdir.
      - intros [= <-]. left. eauto. }
    destruct (uf_read file) as [content|e0]; [|by apply Hfail].
    destruct (MAX_FILE_SIZE <? Z.of_nat (length content)); [by apply Hfail|].
    destruct (write_file _ _ _ _ _) as [[u|e0] fs'] eqn:Hw; [done|].
    apply Hfail. cbn [fs with_fs]. unfold write_file, is_dir in *.
    destruct (fs w !! upload_path) as [[]|] eqn:Hl; repeat case_match; simplify_eq;
      rewrite ?lookup_insert_eq in *; done.
Qed.

Lemma upload_error_codes_witness :
  ∃ cause,
    (upload_audio demo_file "t2" (Some 1%nat) (demo_world pending)).1 =
    Raise (HTTPException 500 ("Upload failed: " +:+ cause)).
Proof.
  pose proof (upload_error_codes demo_file "t2" (Some 1%nat) (demo_world pending)) as H.
  cbv zeta in H. destruct H as [_ H].
  destruct (H ltac:(apply list_elem_of_In; vm_compute; auto)
              (HTTPException 500 "Upload failed: [Errno 28] No space left on device")
              ltac:(vm_compute; reflexivity)) as [[cause Hc]|[Hc _]].
  - exists cause. rewrite <- Hc. vm_compute. reflexivity.
  - discriminate Hc.
Defined.

(** X4. A download hands out a file only for a task that is complete, and
    only a file that is on disk: the path is the one recorded for the task,
    and the name offered is the uploaded file's name followed by
    [_drums.mid] or [_drums.wav]. For a task in any other status both
    downloads answer "Processing not complete". *)
Theorem downloads_are_gated (task_id : string) (w : World) :
  (∀ r, download_midi task_id w = Ok r →
        ∃ t, task_registry w !! task_id = Some t ∧ status t = complete ∧
             midi_path t = Some (fr_path r) ∧ exists_ (fs w) (fr_path r) = true ∧
             fr_filename r = filename t +:+ "_drums.mid") ∧
  (∀ r, download_drum_audio task_id w = Ok r →
        ∃ t, task_registry w !! task_id = Some t ∧ status t = complete ∧
             drum_path t = Some (fr_path r) ∧ exists_ (fs w) (fr_path r) = true ∧
             fr_filename r = filename t +:+ "_drums.wav") ∧
  (∀ t, task_registry w !! task_id = Some t → status t ≠ complete →
        download_midi task_id w = Raise (HTTPException 400 "Processing not complete") ∧
        download_drum_audio task_id w =
          Raise (HTTPException 400 "Processing not complete")).
Proof.
  unfold download_midi, download_drum_audio, download.
  destruct (task_registry w !! task_id) as [t|].
  2:{ split; [intros ? [=]|]. split; [intros ? [=]|]. intros ? [=]. }
  destruct (decide (status t ≠ complete)) as [Hs|Hs].
  - split; [intros ? [=]|]. split; [intros ? [=]|].
    intros ? [= <-] _. split; reflexivity.
  - apply dec_stable in Hs. split; [|split; [|intros ? [= <-] ?; congruence]].
    + intros r. destruct (midi_path t) as [p|] eqn:Hm; [|intros [=]].
      destruct (exists_ (fs w) p) eqn:Hp; cbn [negb]; [|intros [=]].
      intros [= <-]. exists t. cbn [fr_path fr_filename]. done.
    + intros r. destruct (drum_path t) as [p|] eqn:Hm; [|intros [=]].
      destruct (exists_ (fs w) p) eqn:Hp; cbn [negb]; [|intros [=]].
      intros [= <-]. exists t. cbn [fr_path fr_filename]. done.
Qed.

Lemma downloads_are_gated_witness :
  download_midi "t1" (demo_world processing) =
  Raise (HTTPException 400 "Processing not complete").
Proof.
  pose proof (downloads_are_gated "t1" (demo_world processing)) as (_ & _ & H).
  apply (H (demo_task processing)).
  - vm_compute. reflexivity.
  - discriminate.
Defined.

(** ** Cancellation *)

Lemma remove_if_present_ok (p : option path) (fs : FS) :
  (remove_if_present p fs).1 = Ok tt →
  (remove_if_present p fs).2 = match p with Some p => delete p fs | None => fs end.
Proof.
  destruct p as [p|]; [|done].
  unfold remove_if_present, bind, ask, ret, exists_, unlink.
  destruct (fs !! p) as [[t d|t z]|] eqn:Hp; cbn [fst snd]; rewrite ?Hp; cbn [fst snd].
  - done.
  - done.
  - intros _. symmetry. by apply delete_id.
Qed.

Lemma remove_if_present_unit (p : option path) (fs : FS) (u : unit) :
  (remove_if_present p fs).1 = Ok u → (remove_if_present p fs).1 = Ok tt.
Proof. by destruct u. Qed.

(** X5. Cancelling an unknown task answers "Task not found" and changes
    nothing. Cancelling a known task, when it succeeds, removes the record,
    so that a status query then answers "Task not found", leaves every other
    record alone, and leaves nothing on disk at the task's upload, MIDI and
    drum paths while touching no other path. When it fails (a recorded path
    is a directory) the record stays registered. *)
Theorem cancel_task_removes_record_and_files (task_id : string) (w : World) :
  (task_registry w !! task_id = None →
   cancel_task task_id w = (Raise (HTTPException 404 "Task not found"), w)) ∧
  (∀ t, task_registry w !! task_id = Some t →
     let out := cancel_task task_id w in
     (∀ e, out.1 = Raise e → task_registry out.2 = task_registry w) ∧
     (out.1 = Ok tt →
        task_registry out.2 = delete task_id (task_registry w) ∧
        get_status task_id out.2 = Raise (HTTPException 404 "Task not found") ∧
        (∀ p, p = upload_path t ∨ midi_path t = Some p ∨ drum_path t = Some p →
              exists_ (fs out.2) p = false) ∧
        (∀ q, q ≠ upload_path t → midi_path t ≠ Some q → drum_path t ≠ Some q →
              fs out.2 !! q = fs w !! q))).
Proof.
  split.
  - intros Hn. unfold cancel_task. by rewrite Hn.
  - intros t Ht. cbv zeta. unfold cancel_task. rewrite Ht.
    destruct (bind _ _ (fs w)) as [[u|e] fs'] eqn:Hb; cbn [fst snd].
    2:{ split; [done|]. intros [=]. }
    split; [intros ? [=]|]. intros _.
    assert (Hfs : fs' = match drum_path t with
                        | Some p => delete p | None => λ m, m
                        end (match midi_path t with
                             | Some p => delete p | None => λ m, m
                             end (delete (upload_path t) (fs w)))).
    { unfold bind in Hb.
      pose proof (remove_if_present_ok (Some (upload_path t)) (fs w)) as H1.
      destruct (remove_if_present (Some (upload_path t)) (fs w)) as [[[]|e1] fs1];
        [|done]. cbn [fst snd] in H1. rewrite (H1 eq_refl) in Hb. clear H1.
      pose proof (remove_if_present_ok (midi_path t) (delete (upload_path t) (fs w)))
        as H2.
      destruct (remove_if_present (midi_path t) _) as [[[]|e2] fs2]; [|done].
      cbn [fst snd] in H2. rewrite (H2 eq_refl) in Hb. clear H2.
      match type of Hb with
      | remove_if_present ?p ?m = _ =>
          pose proof (remove_if_present_ok p m) as H3; rewrite Hb in H3
      end.
      cbn [fst snd] in H3. destruct u. rewrite (H3 eq_refl).
      by destruct (midi_path t), (drum_path t). }
    cbn [task_registry with_registry with_fs fs].
    split; [done|]. split.
    { unfold get_status. cbn [task_registry with_registry with_fs].
      by rewrite lookup_delete_eq. }
    rewrite Hfs. unfold exists_. split.
    + intros p Hp.
      assert (Hgone : match drum_path t with
                      | Some p => delete p | None => λ m, m
                      end (match midi_path t with
                           | Some p => delete p | None => λ m, m
                           end (delete (upload_path t) (fs w))) !! p = None).
      { destruct (midi_path t) as [pm|], (drum_path t) as [pd|];
          destruct Hp as [->|[[= ->]|[= ->]]];
          rewrite ?lookup_delete_None; auto. }
      by rewrite Hgone.
    + intros q H1 H2 H3.
      destruct (midi_path t) as [pm|], (drum_path t) as [pd|];
        rewrite ?lookup_delete_ne by congruence; done.
Qed.

Lemma cancel_task_removes_record_and_files_witness :
  get_status "t1" (cancel_task "t1" (demo_world failed)).2 =
  Raise (HTTPException 404 "Task not found").
Proof.
  pose proof (cancel_task_removes_record_and_files "t1" (demo_world failed)) as [_ H].
  specialize (H (demo_task failed)). cbv zeta in H.
  destruct H as [_ H]; [vm_compute; reflexivity|].
  apply H. vm_compute. reflexivity.
Defined.

(** ** A subscription to an unknown task *)

(** X6. A subscription under an identifier that is not registered is
    answered with the single frame "Invalid task ID" and closed; nothing is
    registered, no pipeline runs and the disk is not touched. *)
Theorem unknown_task_is_refused
    (separate_to_file predict_and_save : path → path → M unit)
    (ws : WebSocket) (task_id : string) (w : World) :
  task_registry w !! task_id = None →
  let invalid := ErrorFrame "Invalid task ID" None task_id None in
  let out := process_audio separate_to_file predict_and_save ws task_id w in
  out.1.1 = w ∧
  (∀ ws', send_json ws invalid = Ok ws' →
          out = (w, close ws', None) ∧ sent ws' = sent ws ++ [invalid]) ∧
  (∀ e, send_json ws invalid = Raise e → out = (w, ws, Some e)).
Proof.
  intros Hn. cbv zeta. unfold process_audio, begin_subscription. rewrite Hn.
  destruct (send_json ws _) as [ws'|e] eqn:Hs; cbn [fst snd].
  - split; [done|]. split; [|done]. intros ? [= <-]. split; [done|].
    unfold send_json in Hs. destruct (budget ws) as [[|n]|]; simplify_eq; done.
  - split; [done|]. split; [done|]. by intros ? [= <-].
Qed.

Lemma unknown_task_is_refused_witness :
  sent (process_audio spleeter_ok basic_pitch_ok client_stays "nobody"
          (demo_world pending)).1.2 =
  [ErrorFrame "Invalid task ID" None "nobody" None].
Proof.
  pose proof (unknown_task_is_refused spleeter_ok basic_pitch_ok client_stays
                "nobody" (demo_world pending)) as H.
  cbv zeta in H. destruct H as (_ & H & _); [vm_compute; reflexivity|].
  destruct (H (delivered client_stays (ErrorFrame "Invalid task ID" None "nobody" None))
              eq_refl) as [H1 _].
  rewrite H1. reflexivity.
Defined.

(** ** The stages when they succeed *)

Lemma rmtree_ok_removes (p : path) (fs : FS) (u : unit) :
  (rmtree p fs).1 = Ok u → ∀ q, under p q → (rmtree p fs).2 !! q = None.
Proof.
  unfold rmtree. destruct (fs !! p) as [[]|]; cbn [fst snd]; try done.
  intros _ q Hq. apply map_lookup_filter_None. right. intros n _ Hn. by apply Hn.
Qed.

(** X7. When the separation stage succeeds, its result is the normalized
    path [<output_dir>/<task_id>_drums.wav], there is an entry at that path,
    and the scratch directory [<output_dir>/<task_id>_stems] is gone with
    everything below it. *)
Theorem separate_drums_success
    (output_dir : path) (separate_to_file : path → path → M unit) (now : Z)
    (task_id : string) (audio_path : path) (fs : FS) (d : path) :
  let out := _separate_drums output_dir separate_to_file now task_id audio_path fs in
  out.1 = Ok d →
  d = output_dir </> (task_id +:+ "_drums.wav") ∧
  exists_ out.2 d = true ∧
  ∀ q, under (output_dir </> (task_id +:+ "_stems")) q → out.2 !! q = None.
Proof.
  cbv zeta. unfold _separate_drums. intros H.
  apply bind_ok in H as H1. destruct H1 as (u1 & _ & E1). rewrite E1 in H |- *. clear E1.
  apply bind_ok in H as H1. destruct H1 as (u2 & _ & E1). rewrite E1 in H |- *. clear E1.
  set (fs2 := (separate_to_file _ _ _).2) in *. clearbody fs2.
  apply bind_ok in H as H1. destruct H1 as (found & _ & E1). rewrite E1 in H |- *. clear E1.
  cbn [ask snd] in *.
  apply bind_ok in H as H1. destruct H1 as (u3 & _ & E1). rewrite E1 in H |- *. clear E1.
  set (fs3 := (raise_if _ _ _).2) in *. clearbody fs3.
  apply bind_ok in H as H1. destruct H1 as ([] & Hren & E1). rewrite E1 in H |- *. clear E1.
  apply rename_ok_exists in Hren.
  set (fs4 := (rename _ _ _).2) in *. clearbody fs4.
  apply bind_ok in H as H1. destruct H1 as (u5 & Hrm & E1). rewrite E1 in H |- *. clear E1.
  cbn [ret fst snd] in *. injection H as <-. split; [done|]. split.
  - unfold exists_ in *. rewrite rmtree_frame; [done|].
    apply siblings_not_under, scratch_name_differs.
  - by eapply rmtree_ok_removes.
Qed.

Lemma separate_drums_success_witness :
  exists_ (_separate_drums OUTPUT_DIR spleeter_ok 10 "t1" demo_upload demo_fs).2
    (OUTPUT_DIR </> "t1_drums.wav") = true.
Proof.
  pose proof (separate_drums_success OUTPUT_DIR spleeter_ok 10 "t1" demo_upload demo_fs
                (OUTPUT_DIR </> "t1_drums.wav")) as H.
  cbv zeta in H. destruct H as (_ & H & _); [vm_compute; reflexivity|].
  exact H.
Defined.

Lemma convert_to_midi_path
    (output_dir : path) (predict_and_save : path → path → M unit)
    (task_id : string) (drum_path : path) (fs : FS) (m : path) :
  (_convert_to_midi output_dir predict_and_save task_id drum_path fs).1 = Ok m →
  m = output_dir </> (task_id +:+ "_drums.mid").
Proof.
  unfold _convert_to_midi. intros H.
  apply bind_ok in H as H1. destruct H1 as (u1 & _ & E1). rewrite E1 in H. clear E1.
  apply bind_ok in H as H1. destruct H1 as (u2 & _ & E1). rewrite E1 in H. clear E1.
  apply bind_ok in H as H1. destruct H1 as (u3 & _ & E1). rewrite E1 in H. clear E1.
  apply bind_ok in H as H1. destruct H1 as (u4 & _ & E1). rewrite E1 in H. clear E1.
  cbn [ret fst] in H. by injection H as <-.
Qed.

(** X8. When the transcription stage succeeds, the collaborator had
    returned normally, its result is the normalized path
    [<output_dir>/<task_id>_drums.mid], and there is an entry at that
    path. *)
Theorem convert_to_midi_success
    (output_dir : path) (predict_and_save : path → path → M unit)
    (task_id : string) (drum_path : path) (fs : FS) (m : path) :
  let out := _convert_to_midi output_dir predict_and_save task_id drum_path fs in
  out.1 = Ok m →
  (predict_and_save drum_path output_dir fs).1 = Ok tt ∧
  exists_ (predict_and_save drum_path output_dir fs).2
    (output_dir </> (stem drum_path +:+ "_basic_pitch.mid")) = true ∧
  m = output_dir </> (task_id +:+ "_drums.mid") ∧
  exists_ out.2 m = true.
Proof.
  cbv zeta. unfold _convert_to_midi, _run_basic_pitch. intros H.
  apply bind_ok in H as H1. destruct H1 as ([] & Hrun & E1). rewrite E1 in H |- *. clear E1.
  split; [exact Hrun|].
  set (fs1 := (predict_and_save _ _ _).2) in *. clearbody fs1.
  apply bind_ok in H as H1. destruct H1 as (found & Hf & E1). rewrite E1 in H |- *. clear E1.
  cbn [ask fst snd] in *. injection Hf as <-.
  apply bind_ok in H as H1. destruct H1 as (u3 & Hr & E1). rewrite E1 in H |- *. clear E1.
  assert (Hfound : exists_ fs1 (output_dir </> (stem drum_path +:+ "_basic_pitch.mid"))
                   = true).
  { unfold raise_if in Hr. by destruct (exists_ fs1 _). }
  split; [exact Hfound|].
  assert (Hfs : (raise_if (negb (exists_ fs1
                   (output_dir </> (stem drum_path +:+ "_basic_pitch.mid"))))
                   (FileNotFoundError
                      ("Basic-Pitch did not generate MIDI at " +:+
                       str (output_dir </> (stem drum_path +:+ "_basic_pitch.mid"))))
                   fs1).2 = fs1).
  { unfold raise_if. by destruct (negb _). }
  rewrite Hfs in H |- *.
  apply bind_ok in H as H1. destruct H1 as ([] & Hren & E1). rewrite E1 in H |- *. clear E1.
  apply rename_ok_exists in Hren.
  cbn [ret fst snd] in *. injection H as <-. done.
Qed.



Lemma convert_to_midi_success_witness :
  exists_ (_convert_to_midi OUTPUT_DIR basic_pitch_ok "t1" (OUTPUT_DIR </> "t1_drums.wav")
             validated_fs).2 (OUTPUT_DIR </> "t1_drums.mid") = true.
Proof.
  pose proof (convert_to_midi_success OUTPUT_DIR basic_pitch_ok "t1"
                (OUTPUT_DIR </> "t1_drums.wav") validated_fs
                (OUTPUT_DIR </> "t1_drums.mid")) as H.
  cbv zeta in H. destruct H as (_ & _ & _ & H); [vm_compute; reflexivity|].
  exact H.
Defined.

(** ** The pipeline as a whole *)

Lemma validate_outputs_fs drum_path midi_path fs :
  (_validate_outputs drum_path midi_path fs).2 = fs.
Proof. by rewrite validate_outputs_eq. Qed.

Lemma validate_outputs_ok drum_path midi_path fs u :
  (_validate_outputs drum_path midi_path fs).1 = Ok u →
  (∃ dn, fs !! drum_path = Some dn ∧ 1000 ≤ st_size dn) ∧
  (∃ t data, fs !! midi_path = Some (File t data) ∧
             100 ≤ Z.of_nat (length data) ∧ take 4 data = MThd).
Proof.
  rewrite validate_outputs_eq. cbn [fst].
  destruct (fs !! drum_path) as [dn|]; [|done].
  destruct (Z.ltb_spec (st_size dn) 1000); [done|].
  destruct (fs !! midi_path) as [[t data|t z]|]; [| |done].
  - destruct (Z.ltb_spec (st_size (File t data)) 100); [done|].
    case_decide; [|done]. intros _. split; [eauto|]. eexists _, _. done.
  - by destruct (Z.ltb_spec (st_size (Dir t z)) 100).
Qed.

(** The run of [process], stage by stage. *)
Lemma run_process output_dir separate_to_file predict_and_save now task_id audio_path fs :
  run_gen (process output_dir separate_to_file predict_and_save now task_id audio_path) fs
  = let s := _separate_drums output_dir separate_to_file now task_id audio_path fs in
    match s.1 with
    | Raise e => (take 1 all_progress_events, Some e, s.2)
    | Ok d =>
        let c := _convert_to_midi output_dir predict_and_save task_id d s.2 in
        match c.1 with
        | Raise e => (take 3 all_progress_events, Some e, c.2)
        | Ok m =>
            match (_validate_outputs d m c.2).1 with
            | Raise e => (take 5 all_progress_events, Some e, c.2)
            | Ok _ => (all_progress_events, None, c.2)
            end
        end
    end.
Proof.
  unfold process. cbn [run_gen]. cbv zeta.
  destruct (_separate_drums _ _ _ _ _ fs) as [[d|e1] fs1]; cbn [fst snd]; [|done].
  destruct (_convert_to_midi _ _ _ d fs1) as [[m|e2] fs2]; cbn [fst snd]; [|done].
  pose proof (validate_outputs_fs d m fs2) as Hv.
  destruct (_validate_outputs d m fs2) as [[u|e3] fs3]; cbn [fst snd] in *; by subst.
Qed.

(** X9. A run of the pipeline that ends without an exception has yielded
    the seven progress events and leaves both artifacts in place and valid:
    an entry of at least 1000 bytes at [<task_id>_drums.wav], and at
    [<task_id>_drums.mid] a regular file of at least 100 bytes that starts
    with [MThd]. *)
Theorem process_exhausted_outputs_valid
    (output_dir : path) (separate_to_file predict_and_save : path → path → M unit)
    (now : Z) (task_id : string) (audio_path : path) (fs : FS) :
  let run := run_gen (process output_dir separate_to_file predict_and_save now
                        task_id audio_path) fs in
  run.1.2 = None →
  run.1.1 = all_progress_events ∧
  (∃ dn, run.2 !! (output_dir </> (task_id +:+ "_drums.wav")) = Some dn ∧
         1000 ≤ st_size dn) ∧
  (∃ t data, run.2 !! (output_dir </> (task_id +:+ "_drums.mid")) = Some (File t data) ∧
             100 ≤ Z.of_nat (length data) ∧ take 4 data = MThd).
Proof.
  cbv zeta. rewrite run_process. cbv zeta.
  destruct (_separate_drums _ _ _ _ _ fs).1 as [d|e1] eqn:Hs; [|done].
  destruct (_convert_to_midi _ _ _ d _).1 as [m|e2] eqn:Hc; [|done].
  destruct (_validate_outputs d m _).1 as [u|e3] eqn:Hv; [|done].
  intros _. cbn [fst snd]. split; [done|].
  apply separate_drums_ok in Hs as [-> _].
  apply convert_to_midi_path in Hc as ->.
  by apply validate_outputs_ok in Hv.
Qed.



Lemma process_exhausted_outputs_valid_witness :
  (run_gen (process OUTPUT_DIR spleeter_ok basic_pitch_ok 10 "t1" demo_upload)
     demo_fs).1.1 = all_progress_events.
Proof.
  pose proof (process_exhausted_outputs_valid OUTPUT_DIR spleeter_ok basic_pitch_ok 10
                "t1" demo_upload demo_fs) as H.
  cbv zeta in H. destruct H as (H & _); [vm_compute; reflexivity|].
  exact H.
Defined.

(** X10. A run of the pipeline that ends with an exception ended at the
    first stage that raised, with that stage's exception: after one event
    when separation raised, after three when transcription raised, after
    five when validation raised. No later stage has run: the disk is the one
    the failing stage left. *)
Theorem process_stops_at_first_failure
    (output_dir : path) (separate_to_file predict_and_save : path → path → M unit)
    (now : Z) (task_id : string) (audio_path : path) (fs : FS) (e : exn) :
  let separation := _separate_drums output_dir separate_to_file now task_id audio_path fs in
  let conversion := _convert_to_midi output_dir predict_and_save task_id in
  let run := run_gen (process output_dir separate_to_file predict_and_save now
                        task_id audio_path) fs in
  run.1.2 = Some e →
  (separation.1 = Raise e ∧
   run.1.1 = take 1 all_progress_events ∧ run.2 = separation.2) ∨
  (∃ d, separation.1 = Ok d ∧ (conversion d separation.2).1 = Raise e ∧
        run.1.1 = take 3 all_progress_events ∧ run.2 = (conversion d separation.2).2) ∨
  (∃ d m, separation.1 = Ok d ∧ (conversion d separation.2).1 = Ok m ∧
          (_validate_outputs d m (conversion d separation.2).2).1 = Raise e ∧
          run.1.1 = take 5 all_progress_events ∧
          run.2 = (conversion d separation.2).2).
Proof.
  cbv zeta. rewrite run_process. cbv zeta.
  destruct (_separate_drums _ _ _ _ _ fs).1 as [d|e1] eqn:Hs.
  2:{ intros [= <-]. by left. }
  destruct (_convert_to_midi _ _ _ d _).1 as [m|e2] eqn:Hc.
  2:{ intros [= <-]. right; left. exists d. done. }
  destruct (_validate_outputs d m _).1 as [u|e3] eqn:Hv; [done|].
  intros [= <-]. right; right. exists d, m. done.
Qed.

Lemma process_stops_at_first_failure_witness :
  length (run_gen (process OUTPUT_DIR spleeter_ok silent 10 "t1" demo_upload)
            demo_fs).1.1 = 3%nat.
Proof.
  pose proof (process_stops_at_first_failure OUTPUT_DIR spleeter_ok silent 10 "t1"
                demo_upload demo_fs
                (FileNotFoundError
                   "Basic-Pitch did not generate MIDI at /tmp/drumextract/outputs/t1_drums_basic_pitch.mid"))
    as H.
  cbv zeta in H.
  destruct H as [(H & _)|[(d & _ & _ & H & _)|(d & m & Hs & Hc & _)]].
  - vm_compute. reflexivity.
  - vm_compute in H. discriminate H.
  - rewrite H. reflexivity.
  - vm_compute in Hs. injection Hs as <-. vm_compute in Hc. discriminate Hc.
Defined.

(** ** A run with a client that stays *)

Lemma send_json_stays (ws : WebSocket) (f : frame) :
  budget ws = None →
  send_json ws f = Ok {| sent := sent ws ++ [f]; budget := None;
                         fault := fault ws; closed := closed ws |}.
Proof. unfold send_json. by intros ->. Qed.

Lemma final_record_cons task_id now ev evs r t :
  final_record task_id now evs r (set_progress (progress_update task_id ev now) t) =
  final_record task_id now (ev :: evs) r t.
Proof.
  unfold final_record. destruct evs as [|ev' evs]; [by destruct r|].
  change (last (ev :: ev' :: evs)) with (last (ev' :: evs)).
  destruct (last (ev' :: evs)) eqn:Hl; [by destruct r|].
  by apply last_None in Hl.
Qed.

Lemma fs_update_task task_id f w : fs (update_task task_id f w) = fs w.
Proof. reflexivity. Qed.

Lemma clock_update_task task_id f w : clock (update_task task_id f w) = clock w.
Proof. reflexivity. Qed.

Lemma stream_staying (g : gen) :
  ∀ (task_id : string) (w : World) (ws : WebSocket),
    budget ws = None →
    let run := run_gen g (fs w) in
    let out := stream g task_id w ws in
    sent out.1.2 = sent ws ++ progress_frames task_id (clock w) run.1.1
                     ++ [terminal_frame task_id (clock w) run.1.2] ∧
    closed out.1.2 = true ∧
    out.2 = None ∧
    fs out.1.1 = run.2 ∧
    clock out.1.1 = clock w ∧
    task_registry out.1.1 !! task_id =
      final_record task_id (clock w) run.1.1 run.1.2 <$> task_registry w !! task_id ∧
    ∀ other, other ≠ task_id →
             task_registry out.1.1 !! other = task_registry w !! other.
Proof.
  induction g as [ev k IH | A m k IH |]; intros task_id w ws Hb; cbv zeta.
  - cbn [stream run_gen]. rewrite (send_json_stays _ _ Hb).
    match goal with
    | |- context [stream k task_id ?w1 ?ws1] =>
        specialize (IH task_id w1 ws1 eq_refl)
    end.
    cbv zeta in IH. rewrite fs_update_task, clock_update_task in IH. cbn [sent] in IH.
    destruct (run_gen k (fs w)) as [[evs r] fs'].
    cbn [fst snd] in *. destruct IH as (H1 & H2 & H3 & H4 & H5 & H6 & H7).
    split; [by rewrite H1, <- app_assoc|]. do 4 (split; [done|]). split.
    + rewrite H6, task_registry_update_task, lookup_alter_eq.
      destruct (task_registry w !! task_id) as [t|]; [|done]. cbn.
      by rewrite final_record_cons.
    + intros other Hne. rewrite (H7 other Hne), task_registry_update_task.
      by rewrite lookup_alter_ne.
  - cbn [stream run_gen]. destruct (m (fs w)) as [[a|e] fs'].
    + apply (IH a task_id (with_fs fs' w) ws Hb).
    + unfold on_exception. rewrite (send_json_stays _ _ Hb).
      cbn [fst snd sent close closed fs clock task_registry update_task
           with_registry with_fs].
      do 5 (split; [done|]). split.
      * rewrite lookup_alter_eq. by destruct (task_registry w !! task_id).
      * intros other Hne. by rewrite lookup_alter_ne.
  - cbn [stream run_gen]. rewrite (send_json_stays _ _ Hb).
    cbn [fst snd sent close closed fs clock task_registry update_task
         with_registry with_fs].
    do 5 (split; [done|]). split.
    + rewrite lookup_alter_eq. by destruct (task_registry w !! task_id).
    + intros other Hne. by rewrite lookup_alter_ne.
Qed.

(** X11. With a client that stays, the frames of a run are the progress
    events the generator yields, one frame each and in the order yielded,
    followed by exactly one terminal frame: the completion when the
    generator returned, the error with its cause when it raised. The
    connection is then closed and no exception leaves the handler. *)
Theorem stream_frames_in_order (g : gen) (task_id : string) (w : World)
    (ws : WebSocket) :
  budget ws = None →
  let run := run_gen g (fs w) in
  let out := stream g task_id w ws in
  sent out.1.2 = sent ws ++ progress_frames task_id (clock w) run.1.1
                   ++ [terminal_frame task_id (clock w) run.1.2] ∧
  closed out.1.2 = true ∧
  out.2 = None.
Proof.
  intros Hb. destruct (stream_staying g task_id w ws Hb) as (H1 & H2 & H3 & _).
  cbv zeta. by rewrite H1, H2, H3.
Qed.

Lemma stream_frames_in_order_witness :
  length (sent (stream (pipeline_process spleeter_ok silent 10 "t1" demo_upload) "t1"
                  (demo_world processing) client_stays).1.2) = 4%nat.
Proof.
  pose proof (stream_frames_in_order
                (pipeline_process spleeter_ok silent 10 "t1" demo_upload) "t1"
                (demo_world processing) client_stays eq_refl) as H.
  cbv zeta in H. destruct H as (H & _). rewrite H.
  rewrite !length_app. unfold progress_frames. rewrite length_fmap.
  vm_compute. reflexivity.
Defined.

(** X12. With a client that stays, a run rewrites the record of its own task
    and no other. The record ends complete with both output paths set when
    the generator returned, failed with the text of the exception when it
    raised; its progress is the last event yielded; the upload path, the
    file name and the creation time are kept. A run that completes does not
    clear an earlier error, and a run that fails keeps earlier output
    paths. *)
Theorem stream_final_record (g : gen) (task_id : string) (w : World)
    (ws : WebSocket) (t : task) :
  budget ws = None →
  task_registry w !! task_id = Some t →
  let run := run_gen g (fs w) in
  let w' := (stream g task_id w ws).1.1 in
  (∀ other, other ≠ task_id → task_registry w' !! other = task_registry w !! other) ∧
  ∃ t', task_registry w' !! task_id = Some t' ∧
        upload_path t' = upload_path t ∧ filename t' = filename t ∧
        created_at t' = created_at t ∧
        progress t' = match last run.1.1 with
                      | Some ev => Some (progress_update task_id ev (clock w))
                      | None => progress t
                      end ∧
        match run.1.2 with
        | None =>
            status t' = complete ∧
            midi_path t' = Some (OUTPUT_DIR </> (task_id +:+ "_drums.mid")) ∧
            drum_path t' = Some (OUTPUT_DIR </> (task_id +:+ "_drums.wav")) ∧
            error t' = error t
        | Some e =>
            status t' = failed ∧ error t' = Some (str_exn e) ∧
            midi_path t' = midi_path t ∧ drum_path t' = drum_path t
        end.
Proof.
  intros Hb Ht. destruct (stream_staying g task_id w ws Hb)
    as (_ & _ & _ & _ & _ & H6 & H7).
  cbv zeta in *. split; [exact H7|].
  rewrite H6, Ht. eexists. split; [reflexivity|].
  unfold final_record.
  destruct (last (run_gen g (fs w)).1.1), (run_gen g (fs w)).1.2; done.
Qed.

Lemma stream_final_record_witness :
  error_of "t1"
    (stream (pipeline_process spleeter_ok silent 10 "t1" demo_upload) "t1"
       (demo_world processing) client_stays).1.1 =
  Some "Basic-Pitch did not generate MIDI at /tmp/drumextract/outputs/t1_drums_basic_pitch.mid".
Proof.
  pose proof (stream_final_record
                (pipeline_process spleeter_ok silent 10 "t1" demo_upload) "t1"
                (demo_world processing) client_stays (demo_task processing) eq_refl)
    as H.
  cbv zeta in H. destruct H as (_ & t' & Ht' & _ & _ & _ & _ & H);
    [vm_compute; reflexivity|].
  assert (E : (run_gen (pipeline_process spleeter_ok silent 10 "t1" demo_upload)
                 (fs (demo_world processing))).1.2 =
              Some (FileNotFoundError
                "Basic-Pitch did not generate MIDI at /tmp/drumextract/outputs/t1_drums_basic_pitch.mid"))
    by (vm_compute; reflexivity).
  rewrite E in H. destruct H as (_ & H & _).
  unfold error_of. rewrite Ht'. exact H.
Defined.

(** X13. When a task that is not processing is subscribed to by a client
    that stays and its pipeline run ends without an exception, the task is
    complete, a status query gives both download references, and both
    downloads answer with the file under the task's normalized output path,
    named after the uploaded file. *)
Theorem completed_task_is_downloadable
    (separate_to_file predict_and_save : path → path → M unit)
    (ws : WebSocket) (task_id : string) (w : World) (t : task) :
  task_registry w !! task_id = Some t →
  status t ≠ processing →
  budget ws = None →
  (run_gen (process OUTPUT_DIR separate_to_file predict_and_save (clock w) task_id
              (upload_path t)) (fs w)).1.2 = None →
  let w' := (process_audio separate_to_file predict_and_save ws task_id w).1.1 in
  (∃ r, get_status task_id w' = Ok r ∧ ts_status r = complete ∧
        ts_midi_url r = Some ("/download/midi/" +:+ task_id) ∧
        ts_drum_url r = Some ("/download/drum/" +:+ task_id)) ∧
  download_midi task_id w' =
    Ok {| fr_path := OUTPUT_DIR </> (task_id +:+ "_drums.mid");
          fr_media_type := "audio/midi";
          fr_filename := filename t +:+ "_drums.mid" |} ∧
  download_drum_audio task_id w' =
    Ok {| fr_path := OUTPUT_DIR </> (task_id +:+ "_drums.wav");
          fr_media_type := "audio/wav";
          fr_filename := filename t +:+ "_drums.wav" |}.
Proof.
  intros Ht Hnp Hb Hrun. cbv zeta.
  unfold process_audio, begin_subscription. rewrite Ht, decide_False by done.
  unfold pipeline_process.
  set (g := process OUTPUT_DIR separate_to_file predict_and_save (clock w) task_id
              (upload_path t)) in *.
  set (w0 := update_task task_id (set_status processing) w).
  destruct (stream_staying g task_id w0 ws Hb) as (_ & _ & _ & Hfs & _ & Hreg & _).
  cbv zeta in Hfs, Hreg. subst w0.
  rewrite fs_update_task in Hfs, Hreg. rewrite clock_update_task in Hreg.
  rewrite task_registry_update_task, lookup_alter_eq, Ht in Hreg.
  cbn [fmap option_fmap option_map] in Hreg.
  assert (Hfiles : exists_ (run_gen g (fs w)).2 (OUTPUT_DIR </> (task_id +:+ "_drums.mid"))
                   = true ∧
                   exists_ (run_gen g (fs w)).2 (OUTPUT_DIR </> (task_id +:+ "_drums.wav"))
                   = true).
  { subst g. rewrite run_process in Hrun |- *. cbv zeta in Hrun |- *.
    destruct (_separate_drums _ _ _ _ _ (fs w)).1 as [d|e1] eqn:Hs; [|done].
    destruct (_convert_to_midi _ _ _ d _).1 as [m|e2] eqn:Hc; [|done].
    destruct (_validate_outputs d m _).1 as [u|e3] eqn:Hv; [|done].
    cbn [fst snd]. apply separate_drums_ok in Hs as [-> _].
    apply convert_to_midi_path in Hc as ->.
    apply validate_outputs_ok in Hv as [(dn & Hd & _) (tm & data & Hm & _)].
    unfold exists_. by rewrite Hd, Hm. }
  destruct Hfiles as [Hmid Hwav].
  unfold get_status, download_midi, download_drum_audio, download.
  rewrite Hreg, Hfs. unfold final_record. rewrite Hrun.
  cbn [status midi_path drum_path filename set_outputs set_status].
  rewrite !decide_True by done. rewrite decide_False by (intros H; by apply H).
  rewrite Hmid, Hwav. cbn [negb]. split; [|split].
  - eexists. split; [reflexivity|]. done.
  - by destruct (last _).
  - by destruct (last _).
Qed.

Lemma completed_task_is_downloadable_witness :
  fr_path <$>
    match download_midi "t1"
            (process_audio spleeter_ok basic_pitch_ok client_stays "t1"
               (demo_world pending)).1.1 with
    | Ok r => Some r
    | Raise _ => None
    end = Some (OUTPUT_DIR </> "t1_drums.mid").
Proof.
  pose proof (completed_task_is_downloadable spleeter_ok basic_pitch_ok client_stays
                "t1" (demo_world pending) (demo_task pending)) as H.
  cbv zeta in H. destruct H as (_ & H & _).
  - vm_compute. reflexivity.
  - discriminate.
  - reflexivity.
  - vm_compute. reflexivity.
  - rewrite H. reflexivity.
Defined.

(** X14. When a task that is not processing is subscribed to by a client
    that stays and its pipeline run raises, the task is failed: a status
    query reports the text of the exception and no download reference, and
    both downloads answer "Processing not complete". *)
Theorem failed_task_reports_error
    (separate_to_file predict_and_save : path → path → M unit)
    (ws : WebSocket) (task_id : string) (w : World) (t : task) (e : exn) :
  task_registry w !! task_id = Some t →
  status t ≠ processing →
  budget ws = None →
  (run_gen (process OUTPUT_DIR separate_to_file predict_and_save (clock w) task_id
              (upload_path t)) (fs w)).1.2 = Some e →
  let w' := (process_audio separate_to_file predict_and_save ws task_id w).1.1 in
  (∃ r, get_status task_id w' = Ok r ∧ ts_status r = failed ∧
        ts_error r = Some (str_exn e) ∧
        ts_midi_url r = None ∧ ts_drum_url r = None) ∧
  download_midi task_id w' = Raise (HTTPException 400 "Processing not complete") ∧
  download_drum_audio task_id w' = Raise (HTTPException 400 "Processing not complete").
Proof.
  intros Ht Hnp Hb Hrun. cbv zeta.
  unfold process_audio, begin_subscription. rewrite Ht, decide_False by done.
  unfold pipeline_process.
  set (g := process OUTPUT_DIR separate_to_file predict_and_save (clock w) task_id
              (upload_path t)) in *.
  set (w0 := update_task task_id (set_status processing) w).
  destruct (stream_staying g task_id w0 ws Hb) as (_ & _ & _ & _ & _ & Hreg & _).
  cbv zeta in Hreg. subst w0.
  rewrite fs_update_task, clock_update_task in Hreg.
  rewrite task_registry_update_task, lookup_alter_eq, Ht in Hreg.
  cbn [fmap option_fmap option_map] in Hreg.
  unfold get_status, download_midi, download_drum_audio, download.
  rewrite Hreg. unfold final_record. rewrite Hrun.
  cbn [status error set_error set_status].
  rewrite !decide_False by done. cbn [negb]. split; [|done].
  eexists. split; [reflexivity|]. done.
Qed.

Lemma failed_task_reports_error_witness :
  ts_status <$>
    match get_status "t1"
            (process_audio silent basic_pitch_ok client_stays "t1"
               (demo_world pending)).1.1 with
    | Ok r => Some r
    | Raise _ => None
    end = Some failed.
Proof.
  pose proof (failed_task_reports_error silent basic_pitch_ok client_stays
                "t1" (demo_world pending) (demo_task pending)
                (FileNotFoundError
                   ("Spleeter did not generate drums.wav at " +:+
                    str (OUTPUT_DIR </> "t1_stems" </> "t1" </> "drums.wav")))) as H.
  cbv zeta in H. destruct H as ((r & Hr & Hs & _) & _).
  - vm_compute. reflexivity.
  - discriminate.
  - reflexivity.
  - vm_compute. reflexivity.
  - rewrite Hr. cbn [fmap option_fmap option_map]. by rewrite Hs.
Defined.

(** ** The health probe *)

Lemma alter_as_insert {A} (f : A → A) (i : string) (m : gmap string A) (x : A) :
  m !! i = Some x → alter f i m = <[i := f x]> (delete i m).
Proof.
  intros Hx. apply map_eq; intros j. destruct (decide (i = j)) as [<-|Hne].
  - by rewrite lookup_alter_eq, lookup_insert_eq, Hx.
  - by rewrite lookup_alter_ne, lookup_insert_ne, lookup_delete_ne.
Qed.

Lemma health_check_insert (w : World) (task_id : string) (t : task) (m : gmap string task) :
  task_registry w = <[task_id := t]> m →
  m !! task_id = None →
  health_check w =
  ((if decide (status t = processing) then 1 else 0) +
   length (filter (λ kv : string * task, status kv.2 = processing) (map_to_list m)))%nat.
Proof.
  intros Hreg Hm. unfold health_check. rewrite Hreg.
  rewrite (Permutation_length
             (filter_Permutation _ _ _ (map_to_list_insert m task_id t Hm))).
  rewrite filter_cons. cbn [snd]. by case_decide.
Qed.

Lemma health_check_alter (w w' : World) (task_id : string) (t : task) (f : task → task) :
  task_registry w !! task_id = Some t →
  task_registry w' = alter f task_id (task_registry w) →
  (health_check w' + (if decide (status t = processing) then 1 else 0) =
   health_check w + (if decide (status (f t) = processing) then 1 else 0))%nat.
Proof.
  intros Ht Hreg.
  rewrite (health_check_insert w' task_id (f t) (delete task_id (task_registry w)))
    by (by rewrite Hreg, (alter_as_insert _ _ _ _ Ht) || apply lookup_delete_eq).
  rewrite (health_check_insert w task_id t (delete task_id (task_registry w))).
  - lia.
  - symmetry. by apply insert_delete_id.
  - apply lookup_delete_eq.
Qed.

(** X15. The number of active tasks the health probe reports goes up by one
    when a subscription is accepted, and down by one when the run of a task
    that is processing ends, however it ends. *)
Theorem health_check_counts_runs (task_id : string) (w : World) :
  (∀ upload_path w', begin_subscription task_id w = Accepted upload_path w' →
                     health_check w' = S (health_check w)) ∧
  (status_of task_id w = Some processing →
   ∀ g ws, S (health_check (stream g task_id w ws).1.1) = health_check w).
Proof.
  split.
  - intros up w'. unfold begin_subscription.
    destruct (task_registry w !! task_id) as [t|] eqn:Ht; [|done].
    destruct (decide (status t = processing)) as [|Hnp]; [done|].
    intros [= _ <-].
    pose proof (health_check_alter w (update_task task_id (set_status processing) w)
                  task_id t (set_status processing) Ht eq_refl) as H.
    rewrite decide_False in H by done. rewrite decide_True in H by done. lia.
  - unfold status_of. intros Hp g ws.
    destruct (task_registry w !! task_id) as [t|] eqn:Ht; [|done].
    injection Hp as Hp.
    destruct (stream_registry g task_id w ws) as (f & Hf & Hfin).
    pose proof (health_check_alter w _ task_id t f Ht Hf) as H.
    rewrite decide_True in H by done.
    rewrite decide_False in H by (destruct (Hfin t) as [-> | ->]; done). lia.
Qed.

Lemma health_check_counts_runs_witness :
  health_check (stream (pipeline_process spleeter_ok basic_pitch_ok 10 "t1" demo_upload)
                  "t1" (demo_world processing) client_stays).1.1 = 0%nat.
Proof.
  pose proof (health_check_counts_runs "t1" (demo_world processing)) as [_ H].
  assert (E0 : status_of "t1" (demo_world processing) = Some processing)
    by (vm_compute; reflexivity).
  specialize (H E0 (pipeline_process spleeter_ok basic_pitch_ok 10 "t1" demo_upload)
                client_stays).
  assert (E : health_check (demo_world processing) = 1%nat) by (vm_compute; reflexivity).
  rewrite E in H. exact (eq_add_S _ _ H).
Defined.

(** ** The retention sweep: what a pass removes and what it leaves *)

Lemma children_spec (fs : FS) (d q : path) :
  q ∈ children fs d ↔ child_of d q ∧ is_Some (fs !! q).
Proof.
  unfold children. rewrite list_elem_of_filter, list_elem_of_fmap. split.
  - intros [Hc ([k n] & -> & Hin)]. apply elem_of_map_to_list in Hin. eauto.
  - intros [Hc [n Hn]]. split; [done|]. exists (q, n). split; [done|].
    by apply elem_of_map_to_list.
Qed.

Lemma children_NoDup (fs : FS) (d : path) : NoDup (children fs d).
Proof. apply NoDup_filter, NoDup_fst_map_to_list. Qed.

Lemma same_length_not_under (p q : path) :
  length p = length q → p ≠ q → ¬ under p q.
Proof. intros Hl Hne Hu. apply Hne. by apply prefix_same_length. Qed.

(** Two entries of the same depth have nothing below them in common. *)
Lemma under_same_length (p p' q : path) :
  under p q → under p' q → length p = length p' → p = p'.
Proof.
  intros [k ->] [k' E] Hl.
  apply (f_equal (take (length p))) in E.
  rewrite take_app_length in E. rewrite Hl, take_app_length in E. done.
Qed.

Lemma sweepable_dir_spec (fs : FS) (d : path) :
  sweepable_dir fs d = true ↔
  is_dir fs d = true ∧ ∀ p, child_of d p → item_ok fs p = true.
Proof.
  unfold sweepable_dir. rewrite andb_true_iff, forallb_forall.
  split; intros [Hd Hc]; (split; [exact Hd|]).
  - intros p Hp. destruct (fs !! p) as [n|] eqn:Hn.
    + apply Hc, list_elem_of_In, children_spec. eauto.
    + unfold item_ok. by rewrite Hn.
  - intros p [Hp _]%list_elem_of_In%children_spec. by apply Hc.
Qed.

(** An entry swept without interference: what lies outside it stays. *)
Lemma sweep_item_frame (cutoff : Z) (item q : path) (fs : FS) :
  ¬ under item q → (sweep_item (λ fs, fs) cutoff item fs).2 !! q = fs !! q.
Proof.
  intros Hq.
  unfold sweep_item, bind, ask, try_, ret, is_file, is_dir, stat, unlink, rmtree,
    fromtimestamp.
  destruct (fs !! item) as [[t d|t z]|] eqn:Hi; cbn [fst snd]; rewrite ?Hi;
    cbn [st_mtime]; [| |done].
  - destruct (datetime_ok t); [|done].
    destruct (t <? cutoff); cbn [fst snd]; rewrite ?Hi; cbn [fst snd]; [|done].
    apply lookup_delete_ne. intros ->. by apply Hq.
  - destruct (fs !! q) as [n|] eqn:Hl.
    + by apply map_lookup_filter_Some.
    + apply map_lookup_filter_None. by left.
Qed.

Lemma sweep_item_quiet (cutoff : Z) (item : path) (fs : FS) :
  item_ok fs item = true →
  let out := sweep_item (λ fs, fs) cutoff item fs in
  out.1 = Ok tt ∧
  out.2 !! item = swept cutoff (fs !! item) ∧
  (is_dir fs item = true → ∀ q, under item q → out.2 !! q = None).
Proof.
  cbv zeta.
  unfold item_ok, sweep_item, bind, ask, try_, ret, is_file, is_dir, stat, unlink,
    rmtree, fromtimestamp, swept.
  destruct (fs !! item) as [[t d|t z]|] eqn:Hi; cbn [fst snd]; rewrite ?Hi;
    cbn [st_mtime]; [| |done].
  - intros ->. destruct (t <? cutoff); cbn [fst snd]; rewrite ?Hi; cbn [fst snd].
    + split; [done|]. split; [apply lookup_delete_eq|done].
    + done.
  - intros _. split; [done|].
    assert (Hgone : ∀ q, under item q →
              filter (λ kv : path * node, ¬ under item kv.1) fs !! q = None).
    { intros q Hq. apply map_lookup_filter_None. right. intros n _ Hn. by apply Hn. }
    split; [by apply Hgone|]. intros _. exact Hgone.
Qed.

Lemma sweep_items_cons (cutoff : Z) (p : path) (rest : list path) (fs : FS) :
  sweep_items no_race cutoff (p :: rest) fs =
  match sweep_item (λ fs, fs) cutoff p fs with
  | (Ok _, fs1) => sweep_items no_race cutoff rest fs1
  | (Raise e, fs1) => (Raise e, fs1)
  end.
Proof. reflexivity. Qed.

(** Whether it goes through or raises on the way, a sweep over [items]
    changes nothing outside them. *)
Lemma sweep_items_frame (cutoff : Z) (q : path) (items : list path) :
  ∀ fs : FS,
    (∀ p, p ∈ items → ¬ under p q) →
    (sweep_items no_race cutoff items fs).2 !! q = fs !! q.
Proof.
  induction items as [|p rest IH]; intros fs Hq; [done|].
  rewrite sweep_items_cons.
  pose proof (sweep_item_frame cutoff p q fs (Hq p ltac:(left))) as Hfr.
  destruct (sweep_item (λ fs, fs) cutoff p fs) as [[[]|e] fs1]; cbn [snd] in Hfr |- *.
  - rewrite IH; [exact Hfr|]. intros p' Hp'. apply Hq. by right.
  - exact Hfr.
Qed.

Lemma sweep_items_quiet (cutoff : Z) (L : nat) (items : list path) :
  ∀ fs : FS,
    NoDup items →
    (∀ p, p ∈ items → length p = L) →
    (∀ p, p ∈ items → item_ok fs p = true) →
    let out := sweep_items no_race cutoff items fs in
    out.1 = Ok tt ∧
    (∀ q, length q = L →
          out.2 !! q = if decide (q ∈ items) then swept cutoff (fs !! q) else fs !! q) ∧
    (∀ p q, p ∈ items → is_dir fs p = true → under p q → out.2 !! q = None).
Proof.
  induction items as [|p rest IH]; intros fs Hnd Hlen Hok; cbv zeta.
  - cbn. split; [done|]. split.
    + intros q _. rewrite decide_False; [done|]. apply not_elem_of_nil.
    + intros p q Hp. by apply not_elem_of_nil in Hp.
  - apply NoDup_cons in Hnd as [Hp Hnd].
    assert (Hp_len : length p = L) by (apply Hlen; left).
    rewrite sweep_items_cons.
    destruct (sweep_item_quiet cutoff p fs (Hok p ltac:(left))) as (H1 & H2 & H3).
    remember (sweep_item (λ fs, fs) cutoff p fs) as o eqn:Ho.
    destruct o as [[[]|e] fs1]; cbn [fst snd] in H1, H2, H3; [|done].
    assert (Hfr1 : ∀ q, ¬ under p q → fs1 !! q = fs !! q).
    { intros q Hq. pose proof (sweep_item_frame cutoff p q fs Hq) as H.
      by rewrite <- Ho in H. }
    assert (Hrest : ∀ p', p' ∈ rest → fs1 !! p' = fs !! p').
    { intros p' Hp'. apply Hfr1, same_length_not_under.
      - rewrite Hp_len. symmetry. apply Hlen. by right.
      - intros ->. done. }
    destruct (IH fs1 Hnd (λ q Hq, Hlen q (list_elem_of_further _ _ _ Hq)))
      as (H4 & H5 & H6).
    { intros p' Hp'. unfold item_ok. rewrite (Hrest p' Hp').
      apply (Hok p'). by right. }
    split; [exact H4|]. split.
    + intros q Hq. rewrite (H5 q Hq).
      destruct (decide (q = p)) as [->|Hne].
      * rewrite decide_False by done. rewrite decide_True by left. exact H2.
      * rewrite Hfr1 by (apply same_length_not_under; congruence).
        destruct (decide (q ∈ rest)) as [Hin|Hnin].
        -- rewrite decide_True by (by right). done.
        -- rewrite decide_False; [done|]. intros [?|?]%elem_of_cons; done.
    + intros p0 q [->|Hp0]%elem_of_cons Hd Hu.
      * rewrite sweep_items_frame; [by apply H3|].
        intros p' Hp' Hu'. apply Hp.
        rewrite (under_same_length p p' q Hu Hu'); [done|].
        rewrite Hp_len. symmetry. apply Hlen. by right.
      * apply (H6 p0 q Hp0); [|done]. unfold is_dir in *. by rewrite (Hrest p0 Hp0).
Qed.

Lemma sweep_directory_frame (cutoff : Z) (directory q : path) (fs : FS) :
  ¬ (directory `prefix_of` q ∧ length directory < length q)%nat →
  (sweep_directory no_race cutoff directory fs).2 !! q = fs !! q.
Proof.
  intros Hq. unfold sweep_directory, bind, try_, iterdir.
  destruct (fs !! directory) as [[t d|t z]|]; [done| |done].
  apply sweep_items_frame. intros p [[Hpre Hlen] _]%children_spec Hu.
  apply Hq. split.
  - by etrans.
  - apply prefix_length in Hu. lia.
Qed.

Lemma sweep_directory_quiet (cutoff : Z) (directory : path) (fs : FS) :
  sweepable_dir fs directory = true →
  let out := sweep_directory no_race cutoff directory fs in
  out.1 = Ok tt ∧
  (∀ q, child_of directory q → out.2 !! q = swept cutoff (fs !! q)) ∧
  (∀ p q, child_of directory p → is_dir fs p = true → under p q →
          out.2 !! q = None).
Proof.
  intros [Hd Hok]%sweepable_dir_spec. cbv zeta.
  unfold sweep_directory, bind, try_, iterdir. unfold is_dir in Hd.
  destruct (fs !! directory) as [[t d|t z]|]; [done| |done].
  destruct (sweep_items_quiet cutoff (S (length directory)) (children fs directory) fs)
    as (H1 & H2 & H3).
  { apply children_NoDup. }
  { intros p [[_ Hp] _]%children_spec. exact Hp. }
  { intros p [Hp _]%children_spec. by apply Hok. }
  split; [exact H1|]. split.
  - intros q Hq. rewrite (H2 q (proj2 Hq)).
    destruct (fs !! q) as [n|] eqn:Hn.
    + rewrite decide_True; [done|]. apply children_spec. eauto.
    + rewrite decide_False; [done|]. intros [_ Hs]%children_spec.
      rewrite Hn in Hs. by destruct Hs.
  - intros p q Hp Hdir Hu. apply (H3 p q); [|done..].
    apply children_spec. split; [done|]. unfold is_dir in Hdir.
    destruct (fs !! p); [eauto|done].
Qed.

Lemma cleanup_pass_eq (race : path → FS → FS) (now : Z) (fs : FS) :
  cleanup_pass race now fs =
  match sweep_directory race (now - HOUR) UPLOAD_DIR fs with
  | (Ok _, fs1) => sweep_directory race (now - HOUR) OUTPUT_DIR fs1
  | (Raise e, fs1) => (Raise e, fs1)
  end.
Proof. reflexivity. Qed.

(** Nothing lies below both swept directories. *)
Lemma swept_directories_apart (q : path) :
  UPLOAD_DIR `prefix_of` q → OUTPUT_DIR `prefix_of` q → False.
Proof. intros [k1 E1] [k2 E2]. rewrite E1 in E2. discriminate E2. Qed.

Lemma swept_directory_cases (d : path) :
  d ∈ [UPLOAD_DIR; OUTPUT_DIR] → d = UPLOAD_DIR ∨ d = OUTPUT_DIR.
Proof.
  intros [->|Hd]%elem_of_cons; [by left|].
  apply elem_of_cons in Hd as [->|Hd]; [by right|]. by apply not_elem_of_nil in Hd.
Qed.

(** A pass over a disk it can go through: it ends normally, every entry of
    the two directories is [swept], whatever lay below a directory entry is
    gone, and the disk can be gone through again. *)
Lemma cleanup_pass_quiet (now : Z) (fs : FS) :
  sweepable fs = true →
  let out := cleanup_pass no_race now fs in
  out.1 = Ok tt ∧
  (∀ d q, d ∈ [UPLOAD_DIR; OUTPUT_DIR] → child_of d q →
          out.2 !! q = swept (now - HOUR) (fs !! q)) ∧
  (∀ d p q, d ∈ [UPLOAD_DIR; OUTPUT_DIR] → child_of d p → is_dir fs p = true →
            under p q → out.2 !! q = None) ∧
  sweepable out.2 = true.
Proof.
  unfold sweepable. intros [Hu Ho]%andb_true_iff. cbv zeta. rewrite cleanup_pass_eq.
  destruct (sweep_directory_quiet (now - HOUR) UPLOAD_DIR fs Hu) as (H1 & H2 & H3).
  cbv zeta in H1, H2, H3.
  assert (Hfr1 : ∀ q, ¬ (UPLOAD_DIR `prefix_of` q ∧ length UPLOAD_DIR < length q)%nat →
                      (sweep_directory no_race (now - HOUR) UPLOAD_DIR fs).2 !! q
                      = fs !! q).
  { intros q. apply sweep_directory_frame. }
  destruct (sweep_directory no_race (now - HOUR) UPLOAD_DIR fs) as [[[]|e] fs1];
    cbn [fst snd] in H1, H2, H3, Hfr1; [|done].
  assert (Hout : ∀ q, OUTPUT_DIR `prefix_of` q → fs1 !! q = fs !! q).
  { intros q Hq. apply Hfr1. intros [Hq' _]. by apply (swept_directories_apart q). }
  assert (Ho1 : sweepable_dir fs1 OUTPUT_DIR = true).
  { apply sweepable_dir_spec in Ho as [Hd Hok]. apply sweepable_dir_spec.
    unfold is_dir, item_ok in *. split.
    - by rewrite Hout.
    - intros p Hp. rewrite (Hout p (proj1 Hp)). by apply Hok. }
  destruct (sweep_directory_quiet (now - HOUR) OUTPUT_DIR fs1 Ho1) as (H4 & H5 & H6).
  cbv zeta in H4, H5, H6.
  assert (Hfr2 : ∀ q, ¬ (OUTPUT_DIR `prefix_of` q ∧ length OUTPUT_DIR < length q)%nat →
                      (sweep_directory no_race (now - HOUR) OUTPUT_DIR fs1).2 !! q
                      = fs1 !! q).
  { intros q. apply sweep_directory_frame. }
  set (out := (sweep_directory no_race (now - HOUR) OUTPUT_DIR fs1).2) in *.
  assert (Hup : ∀ q, UPLOAD_DIR `prefix_of` q → out !! q = fs1 !! q).
  { intros q Hq. apply Hfr2. intros [Hq' _]. by apply (swept_directories_apart q). }
  assert (Hchild : ∀ d q, d ∈ [UPLOAD_DIR; OUTPUT_DIR] → child_of d q →
                          out !! q = swept (now - HOUR) (fs !! q)).
  { intros d q [-> | ->]%swept_directory_cases Hq.
    - rewrite (Hup q (proj1 Hq)). by apply H2.
    - rewrite (H5 q Hq). by rewrite (Hout q (proj1 Hq)). }
  split; [exact H4|]. split; [exact Hchild|]. split.
  - intros d p q [-> | ->]%swept_directory_cases Hp Hdir Hu'.
    + rewrite Hup by (etrans; [exact (proj1 Hp)|exact Hu']). by apply (H3 p q).
    + apply (H6 p q); [done| |done]. unfold is_dir in *.
      by rewrite (Hout p (proj1 Hp)).
  - assert (Hdirs : ∀ d, d ∈ [UPLOAD_DIR; OUTPUT_DIR] → out !! d = fs !! d).
    { intros d Hd. rewrite Hfr2, Hfr1; [done| |].
      - intros [Hpre Hl]. apply swept_directory_cases in Hd as [-> | ->];
          [lia|cbn in Hl; lia].
      - intros [Hpre Hl]. apply swept_directory_cases in Hd as [-> | ->];
          [cbn in Hl; lia|lia]. }
    assert (Hkeep : ∀ d, d ∈ [UPLOAD_DIR; OUTPUT_DIR] →
                         sweepable_dir fs d = true → sweepable_dir out d = true).
    { intros d Hd [Hdir Hok]%sweepable_dir_spec. apply sweepable_dir_spec.
      unfold is_dir, item_ok in *. rewrite (Hdirs d Hd). split; [exact Hdir|].
      intros p Hp. rewrite (Hchild d p Hd Hp). specialize (Hok p Hp).
      destruct (fs !! p) as [[t data|t z]|]; cbn [swept]; [|done..].
      by destruct (t <? now - HOUR). }
    apply andb_true_iff. split; apply Hkeep; (done || set_solver).
Qed.



(** X16. A pass of the sweep that nothing interferes with only ever removes
    what lies strictly below the upload directory or the output directory:
    the two directories themselves and every path elsewhere on the disk are
    left exactly as they were. *)
Theorem sweep_touches_entries_only (now : Z) (fs : FS) (q : path) :
  (∀ d, d ∈ [UPLOAD_DIR; OUTPUT_DIR] →
        ¬ (d `prefix_of` q ∧ length d < length q)%nat) →
  (cleanup_pass no_race now fs).2 !! q = fs !! q.
Proof.
  intros Hq. rewrite cleanup_pass_eq.
  pose proof (sweep_directory_frame (now - HOUR) UPLOAD_DIR q fs
                (Hq UPLOAD_DIR ltac:(set_solver))) as Hup.
  destruct (sweep_directory no_race (now - HOUR) UPLOAD_DIR fs) as [[[]|e] fs1];
    cbn [snd] in Hup |- *; [|exact Hup].
  rewrite <- Hup. apply sweep_directory_frame, Hq. set_solver.
Qed.

Lemma sweep_touches_entries_only_witness :
  is_dir (cleanup_pass no_race (2 * HOUR) stale_fs).2 UPLOAD_DIR = true.
Proof.
  unfold is_dir.
  rewrite (sweep_touches_entries_only (2 * HOUR) stale_fs UPLOAD_DIR).
  - vm_compute. reflexivity.
  - intros d Hd [_ Hl].
    apply elem_of_cons in Hd as [->|Hd]; [cbn in Hl; lia|].
    apply elem_of_cons in Hd as [->|Hd]; [cbn in Hl; lia|].
    by apply not_elem_of_nil in Hd.
Defined.

(** X17. On a disk where the upload and the output directory are there and
    every regular file in them has a modification time a [datetime] can
    hold, and as long as nothing else touches the disk, no pass of the
    sweep raises, so the loop goes through every wake-up. *)
Theorem cleanup_old_files_runs_every_pass
    (wakeups : list (Z * (path → FS → FS))) (fs : FS) :
  sweepable fs = true →
  Forall (λ wk, wk.2 = no_race) wakeups →
  (cleanup_old_files wakeups fs).1 = (length wakeups, None).
Proof.
  intros Hfs Hq. revert fs Hfs.
  induction Hq as [|[now race] later Hrace _ IH]; intros fs Hfs; [done|].
  cbn [snd] in Hrace. subst race. cbn [cleanup_old_files length].
  destruct (cleanup_pass_quiet now fs Hfs) as (Hok & _ & _ & Hnext).
  cbv zeta in Hok, Hnext.
  destruct (cleanup_pass no_race now fs) as [[[]|e] fs1]; cbn [fst snd] in Hok, Hnext;
    [|done].
  specialize (IH fs1 Hnext).
  destruct (cleanup_old_files later fs1) as [[n r] fs2]. cbn [fst] in *.
  by injection IH as -> ->.
Qed.

Lemma cleanup_old_files_runs_every_pass_witness :
  (cleanup_old_files [(2 * HOUR, no_race); (2 * HOUR + 300000000, no_race)]
     stale_dir_fs).1 = (2%nat, None).
Proof.
  apply (cleanup_old_files_runs_every_pass
           [(2 * HOUR, no_race); (2 * HOUR + 300000000, no_race)] stale_dir_fs).
  - vm_compute. reflexivity.
  - repeat constructor.
Defined.

(** X19. The sweep needs its directories. When at a wake-up the upload
    directory is missing or is not a directory, listing it raises before
    anything is looked at, whatever else goes on: nothing is removed, the
    output directory is not swept, and the loop ends there, so that no
    later pass runs. *)
Theorem cleanup_old_files_ends_without_upload_directory
    (now : Z) (race : path → FS → FS) (later : list (Z * (path → FS → FS)))
    (fs : FS) :
  is_dir fs UPLOAD_DIR = false →
  cleanup_old_files ((now, race) :: later) fs =
    (0%nat,
     Some (if exists_ fs UPLOAD_DIR then NotADirectoryError UPLOAD_DIR
           else enoent UPLOAD_DIR),
     fs).
Proof.
  intros Hd. cbn [cleanup_old_files]. rewrite cleanup_pass_eq.
  unfold sweep_directory at 1. unfold bind, try_, iterdir.
  unfold is_dir, exists_ in *.
  by destruct (fs !! UPLOAD_DIR) as [[t d|t z]|].
Qed.

Lemma cleanup_old_files_ends_without_upload_directory_witness :
  (cleanup_old_files [(2 * HOUR, no_race); (2 * HOUR + 300000000, no_race)] ∅).1 =
  (0%nat, Some (FileNotFoundError
    "[Errno 2] No such file or directory: '/tmp/drumextract/uploads'")).
Proof.
  rewrite (cleanup_old_files_ends_without_upload_directory (2 * HOUR) no_race
             [(2 * HOUR + 300000000, no_race)] ∅); [|reflexivity].
  vm_compute. reflexivity.
Defined.
